(** * Tsono landing site: the flat-file record store of [server.js]

    A shallow embedding of the form-intake backend: the sanitizers, the
    JSON data files and their start-up initialisation, [readData] and
    [writeData] with the advisory lock of proper-lockfile, the three
    submission handlers, the page-view tracker and the event endpoint.

    Conventions of the model.
    - A JavaScript string is a [string] whose characters are UTF-16 code
      units below 256 (the Latin-1 range); [toLowerCase], [trim] and the
      class [\s] are the restrictions of the ECMAScript ones to that range.
    - A data file is held as the JSON document its text denotes, so that
      [JSON.parse (JSON.stringify v)] is [v]; text that [JSON.parse]
      rejects is [Malformed].  Numbers are integers, and an object in a
      data file has the shape the program gives the analytics object.
    - The clock is read in milliseconds since the epoch ([N]).
      [toISOString] prints in UTC; the time zone of the process, which
      [getDate] and [setDate] go by, is part of the environment.
    - Everything the environment decides (whether the lock is free, whether
      [fs.writeFileSync] throws and at which stage, what the clock shows)
      is an explicit argument. *)

From stdpp Require Import gmap strings list fin_maps.
From Stdlib Require Import String Ascii ZArith NArith Lia Bool DecimalString.

Local Open Scope string_scope.
Local Open Scope list_scope.
Set Warnings "-register-all,-clear-no-such-hyp".

(** ** Strings *)

Module Str.

(** The white space and line terminators of ECMAScript below 256:
    TAB, LF, VT, FF, CR, SP and NBSP.  Both [String.prototype.trim] and the
    regular-expression class [\s] use this set. *)
Definition isWhiteSpace (c : ascii) : bool :=
  let n := N_of_ascii c in
  (((9 <=? n) && (n <=? 13)) || (n =? 32) || (n =? 160))%N.

Fixpoint trimStart (s : string) : string :=
  match s with
  | EmptyString => EmptyString
  | String c r => if isWhiteSpace c then trimStart r else s
  end.

Fixpoint trimEnd (s : string) : string :=
  match s with
  | EmptyString => EmptyString
  | String c r =>
      match trimEnd r with
      | EmptyString => if isWhiteSpace c then EmptyString else String c EmptyString
      | r' => String c r'
      end
  end.

Definition trim (s : string) : string := trimEnd (trimStart s).

(** [s.slice(0, n)] *)
Fixpoint slice0 (n : nat) (s : string) : string :=
  match n, s with
  | S k, String c r => String c (slice0 k r)
  | _, _ => EmptyString
  end.

Fixpoint all (p : ascii -> bool) (s : string) : bool :=
  match s with
  | EmptyString => true
  | String c r => p c && all p r
  end.

Fixpoint contains (x : ascii) (s : string) : bool :=
  match s with
  | EmptyString => false
  | String c r => Ascii.eqb c x || contains x r
  end.

(** [haystack.includes(needle)] *)
Fixpoint includes (needle s : string) : bool :=
  String.prefix needle s ||
  match s with
  | EmptyString => false
  | String _ r => includes needle r
  end.

(** Upper-case letters below 256: A-Z, and the Latin-1 capitals
    U+00C0..U+00DE without the multiplication sign U+00D7. *)
Definition isUpper (c : ascii) : bool :=
  let n := N_of_ascii c in
  (((65 <=? n) && (n <=? 90)) ||
   ((192 <=? n) && (n <=? 222) && negb (n =? 215)))%N.

Definition toLowerChar (c : ascii) : ascii :=
  if isUpper c then ascii_of_N (N_of_ascii c + 32) else c.

Fixpoint toLowerCase (s : string) : string :=
  match s with
  | EmptyString => EmptyString
  | String c r => String (toLowerChar c) (toLowerCase r)
  end.

(** Lexicographic order on code units: the [<] of JavaScript on strings. *)
Definition lt (a b : string) : bool := String.ltb a b.

End Str.

(** ** Validation and sanitising (server.js, "Validate email format" and
    "Sanitize input") *)

(** The class [[^\s@]] of [emailRegex]. *)
Definition emailChar (c : ascii) : bool :=
  negb (Str.isWhiteSpace c) && negb (Ascii.eqb c "@").

(** Some ["."] of the string has a character before it and one after it. *)
Fixpoint dotInside (seen : bool) (s : string) : bool :=
  match s with
  | EmptyString => false
  | String c r =>
      (seen && Ascii.eqb c "." && negb (String.eqb r EmptyString)) || dotInside true r
  end.

(** The domain part after the ["@"]: [[^\s@]+\.[^\s@]+$]. *)
Definition emailDomain (s : string) : bool :=
  Str.all emailChar s && dotInside false s.

(** The local part and the rest: [^[^\s@]+@] then the domain.  [n] counts
    the characters of the local part read so far. *)
Fixpoint emailFrom (n : nat) (s : string) : bool :=
  match s with
  | EmptyString => false
  | String c r =>
      if Ascii.eqb c "@" then negb (Nat.eqb n 0) && emailDomain r
      else if Str.isWhiteSpace c then false
      else emailFrom (S n) r
  end.

(** [isValidEmail]: [/^[^\s@]+@[^\s@]+\.[^\s@]+$/.test(email)]. *)
Definition isValidEmail (email : string) : bool := emailFrom 0 email.

(** What [emailRegex] matches: a local part, an at sign, and a domain with
    a dot inside, none of them with white space or a further at sign. *)
Definition emailRegex (s : string) : Prop :=
  exists a b c,
    s = (a ++ "@" ++ b ++ "." ++ c)%string /\
    a <> EmptyString /\ b <> EmptyString /\ c <> EmptyString /\
    Str.all emailChar a = true /\ Str.all emailChar b = true /\
    Str.all emailChar c = true.

(** The first [replace] of [sanitize], which strips tags: a ["<"] starts a
    tag when some [">"] follows, and the tag runs up to the first one.  A
    ["<"] with no [">"] after it is kept, and so is everything behind it. *)
Fixpoint stripTags (s : string) : string :=
  match s with
  | EmptyString => EmptyString
  | String c r =>
      if Ascii.eqb c "<"
      then if Str.contains ">" r then skipTag r else s
      else String c (stripTags r)
  end
with skipTag (s : string) : string :=
  match s with
  | EmptyString => EmptyString
  | String c r => if Ascii.eqb c ">" then stripTags r else skipTag r
  end.

Definition dquote : ascii := ascii_of_nat 34.

(** The [entities] table of [sanitize]. *)
Definition entity (c : ascii) : string :=
  if Ascii.eqb c "<" then "&lt;"
  else if Ascii.eqb c ">" then "&gt;"
  else if Ascii.eqb c dquote then "&quot;"
  else if Ascii.eqb c "'" then "&#x27;"
  else if Ascii.eqb c "&" then "&amp;"
  else String c EmptyString.

(** The second [replace] of [sanitize]: every character of the class
    of five special characters becomes its entity. *)
Fixpoint escapeSpecial (s : string) : string :=
  match s with
  | EmptyString => EmptyString
  | String c r => (entity c ++ escapeSpecial r)%string
  end.

(** [sanitize(str, maxLength)].  A request field is [None] when the body
    does not carry it ([undefined]); [!str] also holds of the empty string. *)
Definition sanitize (str : option string) (maxLength : nat) : string :=
  match str with
  | None => EmptyString
  | Some EmptyString => EmptyString
  | Some s => Str.slice0 maxLength (Str.trim (escapeSpecial (stripTags s)))
  end.

(** ** The clock and ISO-8601 dates *)

Module Clock.

Definition msPerDay : N := 86400000.

Record date := mkDate { year : N; month : N; dayOfMonth : N }.

Definition isLeap (y : N) : bool :=
  (((y mod 4 =? 0) && negb (y mod 100 =? 0)) || (y mod 400 =? 0))%N.

Definition daysInMonth (y m : N) : N :=
  if (m =? 2)%N then (if isLeap y then 29 else 28)%N
  else if ((m =? 4) || (m =? 6) || (m =? 9) || (m =? 11))%N then 30%N
  else 31%N.

(** The day after [d] in the Gregorian calendar. *)
Definition nextDay (d : date) : date :=
  if (dayOfMonth d <? daysInMonth (year d) (month d))%N
  then mkDate (year d) (month d) (dayOfMonth d + 1)
  else if (month d <? 12)%N then mkDate (year d) (month d + 1) 1
  else mkDate (year d + 1) 1 1.

Definition epoch : date := mkDate 1970 1 1.

(** The calendar date of the [n]-th day after 1970-01-01. *)
Definition dateOfDay (n : nat) : date := Nat.iter n nextDay epoch.

Definition digit (n : N) : ascii := ascii_of_N (48 + n mod 10).

Definition pad2 (n : N) : string :=
  String (digit (n / 10)) (String (digit n) EmptyString).

Definition pad3 (n : N) : string := String (digit (n / 100)) (pad2 n).

Definition pad4 (n : N) : string := String (digit (n / 1000)) (pad3 n).

(** [YYYY-MM-DD], for the years 0000 to 9999. *)
Definition dateString (d : date) : string :=
  (pad4 (year d) ++ "-" ++ pad2 (month d) ++ "-" ++ pad2 (dayOfMonth d))%string.

Definition dayNumber (ms : N) : nat := N.to_nat (ms / msPerDay).

(** [new Date(ms).toISOString()]: [YYYY-MM-DDTHH:mm:ss.sssZ]. *)
Definition toISOString (ms : N) : string :=
  let t := (ms mod msPerDay)%N in
  (dateString (dateOfDay (dayNumber ms)) ++ "T" ++
   pad2 (t / 3600000) ++ ":" ++ pad2 (t / 60000 mod 60) ++ ":" ++
   pad2 (t / 1000 mod 60) ++ "." ++ pad3 (t mod 1000) ++ "Z")%string.

(** [s.split('T')[0]] *)
Fixpoint beforeT (s : string) : string :=
  match s with
  | EmptyString => EmptyString
  | String c r => if Ascii.eqb c "T" then EmptyString else String c (beforeT r)
  end.

(** [getDateKey()] when the clock shows [now]. *)
Definition getDateKey (now : N) : string := beforeT (toISOString now).

(** The time zone of the process: the offset of local time from UTC in
    milliseconds, for a time given in UTC and for a time given as local
    time ([LocalTZA] with its flag set and not set).  Offsets stay well
    under a day. *)
Record zone := mkZone {
  offsetAtUTC : Z -> Z;
  offsetAtLocal : Z -> Z
}.

Definition utc : zone := mkZone (fun _ => 0%Z) (fun _ => 0%Z).

(** [d.setDate(d.getDate() - days)] on a date of time value [t]: the
    local time of [t] with the day of the month lowered, which is that
    local time [days] days earlier at the same time of day, taken as a
    local time again. *)
Definition setDateBack (z : zone) (days : Z) (t : Z) : Z :=
  let localTime := (t + offsetAtUTC z t)%Z in
  let moved := (localTime - days * Z.of_N msPerDay)%Z in
  (moved - offsetAtLocal z moved)%Z.

(** The day before [d] in the Gregorian calendar. *)
Definition prevDay (d : date) : date :=
  if (1 <? dayOfMonth d)%N then mkDate (year d) (month d) (dayOfMonth d - 1)
  else if (1 <? month d)%N
       then mkDate (year d) (month d - 1) (daysInMonth (year d) (month d - 1))
       else mkDate (year d - 1) 12 31.

(** The calendar date of the [n]-th day before 1970-01-01. *)
Definition dateBeforeEpoch (n : nat) : date := Nat.iter n prevDay epoch.

(** [toISOString] of a date whose time value may lie before the epoch,
    from the year 0000 on. *)
Definition toISOStringAt (t : Z) : string :=
  if (0 <=? t)%Z then toISOString (Z.to_N t)
  else
    let day := Z.to_nat (- (t / Z.of_N msPerDay)) in
    let s := Z.to_N (t mod Z.of_N msPerDay) in
    (dateString (dateBeforeEpoch day) ++ "T" ++
     pad2 (s / 3600000) ++ ":" ++ pad2 (s / 60000 mod 60) ++ ":" ++
     pad2 (s / 1000 mod 60) ++ "." ++ pad3 (s mod 1000) ++ "Z")%string.

(** The [cutoffKey] of the event endpoint when the clock shows [now]:
    [cutoff.setDate(cutoff.getDate() - 7)], which goes by the time zone of
    the process, then [cutoff.toISOString().split('T')[0]]. *)
Definition cutoffKey (z : zone) (now : N) : string :=
  beforeT (toISOStringAt (setDateBack z 7 (Z.of_N now))).

(** The offset of local time is the same when the clock shows [now] and
    at that local time [days] days earlier: the clocks were not changed in
    between.  It is so in UTC, and in every zone without daylight saving
    time. *)
Definition steady (z : zone) (days : Z) (now : N) : Prop :=
  offsetAtLocal z (Z.of_N now + offsetAtUTC z (Z.of_N now) - days * Z.of_N msPerDay)%Z
  = offsetAtUTC z (Z.of_N now).

Definition isDigit (c : ascii) : bool :=
  let n := N_of_ascii c in ((48 <=? n) && (n <=? 57))%N.

(** [shaped p s]: [s] has the shape [p], where a [d] of [p] stands for a
    decimal digit and every other character for itself. *)
Fixpoint shaped (p s : string) : bool :=
  match p, s with
  | EmptyString, EmptyString => true
  | String pc pr, String c r =>
      (if Ascii.eqb pc "d" then isDigit c else Ascii.eqb c pc) && shaped pr r
  | _, _ => false
  end.

(** The simplified extended ISO-8601 format of ECMAScript. *)
Definition isISO8601 (s : string) : bool := shaped "dddd-dd-ddTdd:dd:dd.dddZ" s.

(** Dates in chronological order. *)
Definition dateBefore (a b : date) : Prop :=
  (year a < year b \/
   (year a = year b /\ (month a < month b \/
                        (month a = month b /\ dayOfMonth a < dayOfMonth b))))%N.

(** A date of the calendar. *)
Definition validDate (d : date) : Prop :=
  (1 <= month d <= 12 /\ 1 <= dayOfMonth d <= daysInMonth (year d) (month d))%N.

End Clock.

(** ** JSON documents and the data files *)

Inductive json :=
| JNull
| JBool (b : bool)
| JNum (z : Z)
| JStr (s : string)
| JArr (items : list json)
| JObj (fields : list (string * json)).

(** Property lookup on a record. *)
Fixpoint field (k : string) (fs : list (string * json)) : option json :=
  match fs with
  | [] => None
  | (k', v) :: r => if String.eqb k k' then Some v else field k r
  end.

Definition getField (k : string) (j : json) : option json :=
  match j with
  | JObj fs => field k fs
  | _ => None
  end.

(** [!v] on a value that is present. *)
Definition falsy (j : json) : bool :=
  match j with
  | JNull | JBool false | JNum 0%Z | JStr EmptyString => true
  | _ => false
  end.

(** One entry of the referrer list. *)
Record referrer := mkReferrer {
  ref_url : string;
  ref_page : string;
  ref_timestamp : string
}.

(** The analytics object, with the three properties the program gives it;
    a property is [None] while the object does not have it.  Page counts
    and events are keyed by date. *)
Record analytics := mkAnalytics {
  pageViews : option (gmap string (gmap string Z));
  referrers : option (list referrer);
  events : option (gmap string (list json))
}.

Definition emptyObject : analytics := mkAnalytics None None None.

(** What [JSON.parse] returns for a data file: an array, an object (of the
    analytics shape), [null], or a primitive (a boolean, a number or a
    string). *)
Inductive document :=
| DArray (items : list json)
| DObject (a : analytics)
| DNull
| DPrimitive (j : json).

Inductive content :=
| Malformed
| Json (d : document).

Record fnode := mkNode { readable : bool; data : content }.

(** The state of the machine that a request can see and change: the files
    under [data/] and the lock directories this process holds. *)
Record world := mkWorld {
  disk : gmap string fnode;
  held : gset string
}.

Module DATA_FILES.
Definition leads : string := "data/leads.json".
Definition contacts : string := "data/contacts.json".
Definition investors : string := "data/investors.json".
Definition analytics : string := "data/analytics.json".
Definition values : list string := [leads; contacts; investors; analytics].
End DATA_FILES.

(** ** Effects: state, exceptions, [try]/[catch]/[finally] *)

Inductive error := ENOENT | EACCES | EIO | ELOCKED | SyntaxError | TypeError.

Inductive outcome (A : Type) :=
| Return (a : A)
| Throw (e : error).
Arguments Return {A} a.
Arguments Throw {A} e.

Definition M (A : Type) : Type := world -> world * outcome A.

Definition ret {A} (a : A) : M A := fun w => (w, Return a).
Definition throw {A} (e : error) : M A := fun w => (w, Throw e).

Definition bind {A B} (m : M A) (k : A -> M B) : M B :=
  fun w =>
    match m w with
    | (w', Return a) => k a w'
    | (w', Throw e) => (w', Throw e)
    end.

Notation "'let!' x ':=' m 'in' k" := (bind m (fun x => k))
  (at level 10, x name, k at level 200).

(** [try { m } catch (err) { h err }] *)
Definition tryCatch {A} (m : M A) (h : error -> M A) : M A :=
  fun w =>
    match m w with
    | (w', Return a) => (w', Return a)
    | (w', Throw e) => h e w'
    end.

(** [try { m } finally { f }]: [f] runs on both exits; when [f] returns,
    the result or the exception of [m] stands. *)
Definition tryFinally {A} (m : M A) (f : M unit) : M A :=
  fun w =>
    match m w with
    | (w', r) =>
        match f w' with
        | (w'', Return _) => (w'', r)
        | (w'', Throw e) => (w'', Throw e)
        end
    end.

(** ** The file system *)

Definition existsSync (file : string) (w : world) : bool :=
  bool_decide (is_Some (disk w !! file)).

(** [fs.readFileSync(file, 'utf8')] *)
Definition readFileSync (file : string) : M content :=
  fun w =>
    match disk w !! file with
    | None => (w, Throw ENOENT)
    | Some n => if readable n then (w, Return (data n)) else (w, Throw EACCES)
    end.

Definition JSON_parse (c : content) : M document :=
  match c with
  | Json d => ret d
  | Malformed => throw SyntaxError
  end.

(** How a call of [fs.writeFileSync] ends.  The file is opened with flag
    [w], which truncates it, and then written: the call can throw before
    it has touched the file, or after it has truncated it, leaving a
    proper prefix of the new text, which is not a JSON text. *)
Inductive writeOutcome := WriteOk | FailsAtOpen | FailsMidway.

Definition putContent (file : string) (c : content) (w : world) : world :=
  let n := match disk w !! file with
           | Some old => mkNode (readable old) c
           | None => mkNode true c
           end in
  mkWorld (<[file := n]> (disk w)) (held w).

(** [fs.writeFileSync(file, JSON.stringify(d, null, 2), 'utf8')] *)
Definition writeFileSync (o : writeOutcome) (file : string) (d : document) : M unit :=
  fun w =>
    match o with
    | WriteOk => (putContent file (Json d) w, Return tt)
    | FailsAtOpen => (w, Throw EACCES)
    | FailsMidway => (putContent file Malformed w, Throw EIO)
    end.

(** "Initialize data files if they don't exist": every file of
    [DATA_FILES] that is absent is written with the text of the empty
    array. *)
Definition initFile (w : world) (file : string) : world :=
  if existsSync file w then w else putContent file (Json (DArray [])) w.

Definition initDataFiles (w : world) : world :=
  foldl initFile w DATA_FILES.values.

(** "Helper to read data" *)
Definition readData (file : string) : M document :=
  tryCatch (let! c := readFileSync file in JSON_parse c)
           (fun _ => ret (DArray [])).

(** ** The advisory lock *)

(** [retries: { retries: 3, ... }]: one attempt and at most three more. *)
Definition lockRetries : nat := 3.

(** The attempts of [lockfile.lock]: [busy] is the number of attempts
    that find the lock directory of another holder in place. *)
Fixpoint attemptLock (retriesLeft busy : nat) {struct busy} : bool :=
  match busy with
  | O => true
  | S b =>
      match retriesLeft with
      | O => false
      | S r => attemptLock r b
      end
  end.

(** One attempt to take the lock: the [mkdir] of the lock directory, which
    fails when the directory is there. *)
Definition acquire (file : string) : M unit :=
  fun w =>
    if bool_decide (file ∈ held w) then (w, Throw ELOCKED)
    else (mkWorld (disk w) ({[file]} ∪ held w), Return tt).

(** [lockfile.lock(file, { retries })].  The path is resolved first
    (option [realpath], on by default), which rejects when the file does
    not exist; then the attempts run. *)
Definition lockfile_lock (busy : nat) (file : string) : M unit :=
  fun w =>
    if negb (existsSync file w) then (w, Throw ENOENT)
    else if attemptLock lockRetries busy then acquire file w
    else (w, Throw ELOCKED).

(** The [release] function that [lockfile.lock] resolves to. *)
Definition release (file : string) : M unit :=
  fun w => (mkWorld (disk w) (held w ∖ {[file]}), Return tt).

(** What the environment decides during one request: the successive
    readings of the clock, the number of lock attempts that find the lock
    taken, how the write ends, and the time zone the process runs in. *)
Record env := mkEnv {
  now : nat -> N;
  lockBusy : nat;
  writeResult : writeOutcome;
  timeZone : Clock.zone
}.

(** "Helper to write data with file locking".  When [lockfile.lock]
    rejects, [release] is still undefined and the [finally] block does
    nothing. *)
Definition writeData (e : env) (file : string) (d : document) : M unit :=
  fun w =>
    match lockfile_lock (lockBusy e) file w with
    | (w', Throw err) => (w', Throw err)
    | (w', Return _) =>
        tryFinally (writeFileSync (writeResult e) file d) (release file) w'
    end.

(** ** The submission handlers *)

Inductive response :=
| Success
| BadRequest (message : string)
| ServerError.

(** The fields of [req.body] that the handlers read, for a body whose
    fields are strings, as the forms of the site send them; a field the
    body does not carry is [None].  Bodies with values of other kinds are
    those of [jsonBody] below. *)
Record body := mkBody {
  req_name : option string;
  req_email : option string;
  req_interest : option string;
  req_subject : option string;
  req_message : option string;
  req_company : option string;
  req_type : option string
}.

(** [!s || !s.trim()] on a string or [undefined]. *)
Definition blank (s : option string) : bool :=
  match s with
  | None => true
  | Some s => String.eqb s EmptyString || String.eqb (Str.trim s) EmptyString
  end.

(** [!email || !isValidEmail(email)] on a string or [undefined]. *)
Definition badEmail (s : option string) : bool :=
  match s with
  | None => true
  | Some s => String.eqb s EmptyString || negb (isValidEmail s)
  end.

(** [s || fallback] on strings. *)
Definition orElse (s fallback : string) : string :=
  if String.eqb s EmptyString then fallback else s.

(** The record built by [app.post('/api/leads')]: [Date.now()] is the
    first reading of the clock, [new Date()] the second. *)
Definition lead (e : env) (b : body) : json :=
  JObj [("id", JNum (Z.of_N (now e 0)));
        ("type", JStr "lead");
        ("name", JStr (sanitize (req_name b) 100));
        ("email", JStr (Str.toLowerCase (sanitize (req_email b) 254)));
        ("interest", JStr (orElse (sanitize (req_interest b) 50) "general"));
        ("timestamp", JStr (Clock.toISOString (now e 1)))].

Definition contact (e : env) (b : body) : json :=
  JObj [("id", JNum (Z.of_N (now e 0)));
        ("type", JStr "contact");
        ("name", JStr (sanitize (req_name b) 100));
        ("email", JStr (Str.toLowerCase (sanitize (req_email b) 254)));
        ("subject", JStr (orElse (sanitize (req_subject b) 100) "General Inquiry"));
        ("message", JStr (sanitize (req_message b) 5000));
        ("status", JStr "new");
        ("timestamp", JStr (Clock.toISOString (now e 1)))].

Definition investor (e : env) (b : body) : json :=
  JObj [("id", JNum (Z.of_N (now e 0)));
        ("type", JStr "investor");
        ("name", JStr (sanitize (req_name b) 100));
        ("email", JStr (Str.toLowerCase (sanitize (req_email b) 254)));
        ("company", JStr (sanitize (req_company b) 100));
        ("inquiryType", JStr (orElse (sanitize (req_type b) 50) "general"));
        ("message", JStr (sanitize (req_message b) 5000));
        ("status", JStr "new");
        ("timestamp", JStr (Clock.toISOString (now e 1)))].

(** [xs.push(r)]: only an array has [push]. *)
Definition push (xs : document) (r : json) : M document :=
  match xs with
  | DArray items => ret (DArray (items ++ [r]))
  | _ => throw TypeError
  end.

(** The [try] block that the three handlers share: read the array, push
    the record, write the array; any exception becomes the 500 reply. *)
Definition save (e : env) (file : string) (r : json) : M response :=
  tryCatch
    (let! xs := readData file in
     let! xs' := push xs r in
     let! _ := writeData e file xs' in
     ret Success)
    (fun _ => ret ServerError).

Definition post_leads (e : env) (b : body) : M response :=
  if blank (req_name b) then ret (BadRequest "Name is required")
  else if badEmail (req_email b) then ret (BadRequest "Valid email is required")
  else save e DATA_FILES.leads (lead e b).

Definition post_contact (e : env) (b : body) : M response :=
  if blank (req_name b) then ret (BadRequest "Name is required")
  else if badEmail (req_email b) then ret (BadRequest "Valid email is required")
  else if blank (req_message b) then ret (BadRequest "Message is required")
  else save e DATA_FILES.contacts (contact e b).

Definition post_investors (e : env) (b : body) : M response :=
  if blank (req_name b) then ret (BadRequest "Name is required")
  else if badEmail (req_email b) then ret (BadRequest "Valid email is required")
  else save e DATA_FILES.investors (investor e b).

(** ** Analytics *)

(** The three lines that initialise and increment
    [analytics.pageViews[dateKey][page]].  A page is a request path and
    starts with a slash, and a date key with a digit, so neither names a
    property that objects inherit. *)
Definition countView (dateKey page : string) (a : analytics) : analytics :=
  let pv := default ∅ (pageViews a) in
  let day := default ∅ (pv !! dateKey) in
  let n := default 0%Z (day !! page) in
  mkAnalytics (Some (<[dateKey := <[page := (n + 1)%Z]> day]> pv))
              (referrers a) (events a).

(** [referer && !referer.includes('tsono.app')] *)
Definition external (referer : option string) : bool :=
  match referer with
  | None => false
  | Some r => negb (String.eqb r EmptyString) && negb (Str.includes "tsono.app" r)
  end.

Definition referrerEntry (e : env) (page : string) (referer : option string) : referrer :=
  mkReferrer (sanitize referer 500) (sanitize (Some page) 200)
             (Clock.toISOString (now e 1)).

(** "Track referrers (last 100)": [unshift] the entry, then [slice(0, 100)]. *)
Definition noteReferrer (e : env) (page : string) (referer : option string)
    (a : analytics) : analytics :=
  let rs := default [] (referrers a) in
  mkAnalytics (pageViews a)
    (Some (if external referer
           then take 100 (referrerEntry e page referer :: rs)
           else rs))
    (events a).

(** [trackPageView(page, referer, userAgent)].  When the document is an
    array, the properties are set on the array object and
    [JSON.stringify] prints the elements only; on [null] and on a
    primitive the property accesses throw.  The [catch] logs and returns. *)
Definition trackPageView (e : env) (page : string) (referer : option string) : M unit :=
  tryCatch
    (let! doc := readData DATA_FILES.analytics in
     let dateKey := Clock.getDateKey (now e 0) in
     match doc with
     | DObject a =>
         writeData e DATA_FILES.analytics
           (DObject (noteReferrer e page referer (countView dateKey page a)))
     | DArray items => writeData e DATA_FILES.analytics (DArray items)
     | DNull | DPrimitive _ => throw TypeError
     end)
    (fun _ => ret tt).

(** The body of [POST /api/analytics/event]. *)
Record eventBody := mkEventBody {
  req_event : option json;
  req_data : option json
}.

(** [!event] *)
Definition noEvent (ev : option json) : bool :=
  match ev with
  | None => true
  | Some j => falsy j
  end.

(** [data || {}] *)
Definition dataOrEmpty (d : option json) : json :=
  match d with
  | None => JObj []
  | Some j => if falsy j then JObj [] else j
  end.

Definition eventRecord (e : env) (b : eventBody) : json :=
  JObj [("event", default JNull (req_event b));
        ("data", dataOrEmpty (req_data b));
        ("timestamp", JStr (Clock.toISOString (now e 1)))].

(** "Keep only last 7 days of events": every key below [cutoffKey] is
    deleted. *)
Definition prune (cutoffKey : string) (evs : gmap string (list json)) :
    gmap string (list json) :=
  filter (fun kv => Str.lt (fst kv) cutoffKey = false) evs.

Definition recordEvent (e : env) (b : eventBody) (a : analytics) : analytics :=
  let evs := default ∅ (events a) in
  let dateKey := Clock.getDateKey (now e 0) in
  let today := default [] (evs !! dateKey) in
  let evs' := <[dateKey := today ++ [eventRecord e b]]> evs in
  mkAnalytics (pageViews a) (referrers a)
              (Some (prune (Clock.cutoffKey (timeZone e) (now e 2)) evs')).

Definition post_event (e : env) (b : eventBody) : M response :=
  if noEvent (req_event b) then ret (BadRequest "Event name required")
  else
    tryCatch
      (let! doc := readData DATA_FILES.analytics in
       let! _ :=
         match doc with
         | DObject a => writeData e DATA_FILES.analytics (DObject (recordEvent e b a))
         | DArray items => writeData e DATA_FILES.analytics (DArray items)
         | DNull | DPrimitive _ => throw TypeError
         end in
       ret Success)
      (fun _ => ret ServerError).

(** ** The routes of the three collections *)

Inductive collection := Leads | Contacts | Investors.

Definition fileOf (c : collection) : string :=
  match c with
  | Leads => DATA_FILES.leads
  | Contacts => DATA_FILES.contacts
  | Investors => DATA_FILES.investors
  end.

Definition recordOf (c : collection) : env -> body -> json :=
  match c with
  | Leads => lead
  | Contacts => contact
  | Investors => investor
  end.

Definition handler (c : collection) : env -> body -> M response :=
  match c with
  | Leads => post_leads
  | Contacts => post_contact
  | Investors => post_investors
  end.

(** What a file holds, whether or not it can be read. *)
Definition stored (file : string) (w : world) : option content :=
  data <$> disk w !! file.

(** The state after a computation. *)
Definition exec {A} (m : M A) (w : world) : world := fst (m w).

(** Requests served one after the other, each to its reply. *)
Definition submitAll (c : collection) (rs : list (env * body)) (w : world) : world :=
  foldl (fun w r => exec (handler c (fst r) (snd r)) w) w rs.

Record pageView := mkPageView {
  pv_env : env;
  pv_page : string;
  pv_referer : option string
}.

Definition trackAll (vs : list pageView) (w : world) : world :=
  foldl (fun w v => exec (trackPageView (pv_env v) (pv_page v) (pv_referer v)) w) w vs.

(** The referrer list of the persisted analytics document, if it has one. *)
Definition persistedReferrers (w : world) : option (list referrer) :=
  match stored DATA_FILES.analytics w with
  | Some (Json (DObject a)) => referrers a
  | _ => None
  end.

(** The events of the persisted analytics document, if it has any. *)
Definition persistedEvents (w : world) : option (gmap string (list json)) :=
  match stored DATA_FILES.analytics w with
  | Some (Json (DObject a)) => events a
  | _ => None
  end.

(** ** Requests in flight

    A handler runs from one [await] to the next without interruption, and
    between two such segments the segments of other requests may run.  The
    [try] block of a submission handler has four segments: up to the call
    of [lockfile.lock]; one attempt on the lock; from the resolution of
    [lockfile.lock] to the call of [release]; from the resolution of
    [release] to the reply.  An attempt on the lock that finds it taken is
    repeated while retries are left. *)

Module Flight.

Inductive phase :=
| Arrived (file : string) (r : json)
| AwaitLock (file : string) (xs : document) (retriesLeft : nat)
| Locked (file : string) (xs : document)
| AwaitRelease (file : string) (written : outcome unit)
| Replied (resp : response).

Record state := mkState {
  shared : world;
  requests : list phase
}.

Definition set (i : nat) (p : phase) (w : world) (s : state) : state :=
  mkState w (<[i := p]> (requests s)).

(** The next segment of request [i]; [o] is how its write ends, should
    this segment be the one that writes. *)
Definition advance (i : nat) (o : writeOutcome) (s : state) : option state :=
  match requests s !! i with
  | Some (Arrived file r) =>
      match (let! xs := readData file in push xs r) (shared s) with
      | (w, Return xs) => Some (set i (AwaitLock file xs lockRetries) w s)
      | (w, Throw _) => Some (set i (Replied ServerError) w s)
      end
  | Some (AwaitLock file xs n) =>
      if negb (existsSync file (shared s))
      then Some (set i (Replied ServerError) (shared s) s)
      else
        match acquire file (shared s) with
        | (w, Return _) => Some (set i (Locked file xs) w s)
        | (w, Throw _) =>
            match n with
            | O => Some (set i (Replied ServerError) w s)
            | S k => Some (set i (AwaitLock file xs k) w s)
            end
        end
  | Some (Locked file xs) =>
      match writeFileSync o file xs (shared s) with
      | (w, res) => Some (set i (AwaitRelease file res) w s)
      end
  | Some (AwaitRelease file res) =>
      match release file (shared s) with
      | (w, _) =>
          Some (set i (Replied match res with
                               | Return _ => Success
                               | Throw _ => ServerError
                               end) w s)
      end
  | Some (Replied _) | None => None
  end.

Definition step (s s' : state) : Prop :=
  exists i o, advance i o s = Some s'.

(** A schedule names, segment by segment, the request that runs. *)
Fixpoint run (schedule : list (nat * writeOutcome)) (s : state) : option state :=
  match schedule with
  | [] => Some s
  | (i, o) :: rest =>
      match advance i o s with
      | Some s' => run rest s'
      | None => None
      end
  end.

(** A request served alone: its segments, one after the other, up to the
    reply. *)
Fixpoint solo (fuel : nat) (o : writeOutcome) (s : state) : state :=
  match fuel with
  | O => s
  | S k =>
      match advance 0 o s with
      | Some s' => solo k o s'
      | None => s
      end
  end.

(** The file a request is inside the locked region of. *)
Definition inside (p : phase) : option string :=
  match p with
  | Locked file _ | AwaitRelease file _ => Some file
  | _ => None
  end.

(** Every request inside a locked region holds the lock of its file, and
    no two requests are inside the locked region of the same file. *)
Definition exclusive (s : state) : Prop :=
  (forall i p f, requests s !! i = Some p -> inside p = Some f -> f ∈ held (shared s)) /\
  (forall i j p q f,
     requests s !! i = Some p -> requests s !! j = Some q ->
     inside p = Some f -> inside q = Some f -> i = j).

End Flight.

(** ** Sample data and auxiliary notions of the statements *)

(** The data directory after a first start. *)
Definition world0 : world := initDataFiles (mkWorld ∅ ∅).

(** A request during which nothing goes wrong: the lock is free, the
    write succeeds, and the clock shows [t] throughout; the process runs
    in UTC. *)
Definition calm (t : N) : env := mkEnv (fun _ => t) 0 WriteOk Clock.utc.

(** A request during which the lock is taken at all four attempts. *)
Definition lockedOut : env := mkEnv (fun _ => 1793591700000%N) 4 WriteOk Clock.utc.

(** A request whose write throws after the file was truncated. *)
Definition tornWrite : env :=
  mkEnv (fun _ => 1793591700000%N) 0 FailsMidway Clock.utc.

Definition jo : body :=
  mkBody (Some "Jo") (Some "jo@x.com") (Some "racing") None None None None.

Definition shout : body :=
  mkBody (Some "Jo") (Some "Jo@X.COM") None None None None None.

Definition oneLead : world :=
  putContent DATA_FILES.leads (Json (DArray [lead (calm 1793591645123) jo])) world0.


Definition built (c : collection) (r : env * body) : json :=
  recordOf c (fst r) (snd r).


(** The analytics file does not hold an object. *)
Definition noObject (w : world) : Prop :=
  forall a, stored DATA_FILES.analytics w <> Some (Json (DObject a)).

(** Nothing goes wrong during the request: the lock is obtained within the
    retries and the write succeeds. *)
Definition quiet (e : env) : Prop :=
  attemptLock lockRetries (lockBusy e) = true /\ writeResult e = WriteOk.

(** The [k]-th of a run of visitors, each sent by a page of its own. *)
Definition visitor (k : nat) : pageView :=
  mkPageView (calm (1793591645123 + N.of_nat k)) "/index.html"
             (Some ("https://ref.example/" ++ Clock.pad3 (N.of_nat k))%string).

Definition oneFiftyViews : list pageView := visitor <$> seq 0 150.

(** What one page view makes of the analytics object. *)
Definition viewed (a : analytics) (v : pageView) : analytics :=
  noteReferrer (pv_env v) (pv_page v) (pv_referer v)
    (countView (Clock.getDateKey (now (pv_env v) 0)) (pv_page v) a).

(** The entries that a run of page views puts on the list, oldest first. *)
Definition entries (vs : list pageView) : list referrer :=
  (fun v => referrerEntry (pv_env v) (pv_page v) (pv_referer v)) <$>
  filter (fun v => external (pv_referer v) = true) vs.

(** An analytics object with one event of 20 October 2026. *)
Definition oldEvent : json :=
  JObj [("event", JStr "signup_click"); ("data", JObj []);
        ("timestamp", JStr "2026-10-20T09:00:00.000Z")].

Definition oldAnalytics : analytics :=
  mkAnalytics None None (Some {["2026-10-20" := [oldEvent]]}).

Definition withOldEvent : world :=
  putContent DATA_FILES.analytics (Json (DObject oldAnalytics)) world0.

Definition click : eventBody := mkEventBody (Some (JStr "cta_click")) None.

(** The zone of New York around 1 November 2026, when daylight saving
    time ended at 06:00 UTC: four hours behind UTC before, five after.  A
    local time that occurs twice counts as the earlier one. *)
Definition newYork : Clock.zone :=
  Clock.mkZone
    (fun t => if (t <? 1793512800000)%Z then (-14400000)%Z else (-18000000)%Z)
    (fun t => if (t <? 1793498400000)%Z then (-14400000)%Z else (-18000000)%Z).

Definition inNewYork (t : N) : env := mkEnv (fun _ => t) 0 WriteOk newYork.

(** An analytics object with one event under the key of 25 October 2026. *)
Definition eightDaysOld : world :=
  putContent DATA_FILES.analytics
    (Json (DObject (mkAnalytics None None (Some {["2026-10-25" := [oldEvent]]}))))
    world0.

(** Two submissions to [leads.json] in flight at once. *)
Definition twoSubmissions : Flight.state :=
  Flight.mkState world0
    [Flight.Arrived DATA_FILES.leads (lead (calm 1793591645123) jo);
     Flight.Arrived DATA_FILES.leads (lead (calm 1793591645125) shout)].

(** Both handlers run up to their [await lockfile.lock]; the first request
    gets the lock while the attempt of the second fails; the first writes
    and releases; the retry of the second succeeds, and it writes and
    releases. *)
Definition race : list (nat * writeOutcome) :=
  [(0, WriteOk); (1, WriteOk); (0, WriteOk); (1, WriteOk); (0, WriteOk);
   (0, WriteOk); (1, WriteOk); (1, WriteOk); (1, WriteOk)].

(** * Further parts of the server *)

(** ** Logging *)

(** [s.split(sep)] for a separator of one character. *)
Fixpoint split (sep : ascii) (s : string) : list string :=
  match s with
  | EmptyString => [EmptyString]
  | String c r =>
      if Ascii.eqb c sep then EmptyString :: split sep r
      else match split sep r with
           | p :: ps => String c p :: ps
           | [] => [String c EmptyString]
           end
  end.

(** [s[i]] inside a concatenation: the character, or the text of
    [undefined] when the string is shorter. *)
Definition charText (i : nat) (s : string) : string :=
  match String.get i s with
  | Some c => String c EmptyString
  | None => "undefined"
  end.

(** The [masked] local part of [anonymizeEmail]. *)
Definition mask (localPart : string) : string :=
  if (2 <? String.length localPart)%nat
  then (charText 0 localPart ++ "***" ++
        charText (String.length localPart - 1) localPart)%string
  else "***".

(** [anonymizeEmail(email)] *)
Definition anonymizeEmail (email : option string) : string :=
  match email with
  | None | Some EmptyString => "unknown"
  | Some e =>
      match split "@" e with
      | [localPart; domain] => (mask localPart ++ "@" ++ domain)%string
      | _ => "invalid"
      end
  end.

(** The characters that [sanitize] leaves in no output: the two angle
    brackets and the two quotes. *)
Definition markup (c : ascii) : bool :=
  Ascii.eqb c "<" || Ascii.eqb c ">" || Ascii.eqb c dquote || Ascii.eqb c "'".

(** The five characters that [sanitize] rewrites. *)
Definition special (c : ascii) : bool := markup c || Ascii.eqb c "&".

(** ** The admin routes *)

(** The two settings that [adminAuth] reads from the environment. *)
Record config := mkConfig {
  IS_PRODUCTION : bool;
  ADMIN_KEY : option string
}.

(** The truth value of a string, or of [undefined]. *)
Definition isSet (s : option string) : bool :=
  match s with
  | Some (String _ _) => true
  | _ => false
  end.

(** What a middleware decides: call [next()], or reply with a status. *)
Inductive verdict := Next | Reject (status : nat).

(** [adminAuth(req, res, next)]; [authHeader] is the header [x-admin-key]. *)
Definition adminAuth (cfg : config) (authHeader : option string) : verdict :=
  if IS_PRODUCTION cfg && negb (isSet (ADMIN_KEY cfg)) then Reject 500
  else if negb (isSet (ADMIN_KEY cfg)) then Next
  else if negb (bool_decide (authHeader = ADMIN_KEY cfg)) then Reject 401
  else Next.

Inductive guarded (A : Type) :=
| Served (a : A)
| Refused (status : nat).
Arguments Served {A} a.
Arguments Refused {A} status.

(** A route registered as [app.get(path, adminAuth, handler)]. *)
Definition behind {A} (cfg : config) (authHeader : option string) (m : M A) :
    M (guarded A) :=
  match adminAuth cfg authHeader with
  | Next => let! a := m in ret (Served a)
  | Reject status => ret (Refused status)
  end.

(** The body [{ success: true, count: xs.length, data: xs }]: [count] is
    [None] when [xs.length] is [undefined]. *)
Record listing := mkListing {
  count : option nat;
  rows : document
}.

(** [xs.length]: [null] has no properties, arrays and strings have a
    length, and on the rest the property is [undefined]. *)
Definition lengthOf (d : document) : M (option nat) :=
  match d with
  | DNull => throw TypeError
  | DArray items => ret (Some (List.length items))
  | DPrimitive (JStr s) => ret (Some (String.length s))
  | _ => ret None
  end.

(** The handlers of [GET /api/leads], [/api/contacts] and
    [/api/investors]. *)
Definition list_collection (file : string) : M listing :=
  let! xs := readData file in
  let! n := lengthOf xs in
  ret (mkListing n xs).

Definition get_collection (cfg : config) (authHeader : option string)
    (c : collection) : M (guarded listing) :=
  behind cfg authHeader (list_collection (fileOf c)).

(** The [summary] of [GET /api/all]: a length that is [undefined] is left
    out, and the total is then [NaN], which is printed as [null]. *)
Record allSummary := mkAllSummary {
  all_leads : option nat;
  all_contacts : option nat;
  all_investors : option nat;
  all_total : option nat
}.

Definition get_all (cfg : config) (authHeader : option string) :
    M (guarded allSummary) :=
  behind cfg authHeader
    (let! leads := readData DATA_FILES.leads in
     let! contacts := readData DATA_FILES.contacts in
     let! investors := readData DATA_FILES.investors in
     let! l := lengthOf leads in
     let! c := lengthOf contacts in
     let! i := lengthOf investors in
     ret (mkAllSummary l c i
            match l, c, i with
            | Some l, Some c, Some i => Some (l + c + i)
            | _, _, _ => None
            end)).

(** The validation of a submission: the conditions under which a handler
    goes on to build the record. *)
Definition accepted (c : collection) (b : body) : bool :=
  negb (blank (req_name b)) && negb (badEmail (req_email b)) &&
  match c with
  | Contacts => negb (blank (req_message b))
  | _ => true
  end.

(** Requests that pass validation while nothing goes wrong. *)
Definition smooth (c : collection) (r : env * body) : Prop :=
  quiet (fst r) /\ accepted c (snd r) = true.


(** ** The CSV export *)

Definition newline : ascii := ascii_of_nat 10.

(** [String(z)] for an integer that a double holds exactly, up to [2^53]
    in size: these print in decimal. *)
Definition numberText (z : Z) : string := NilZero.string_of_int (Z.to_int z).

(** [xs.join(sep)] on texts of which some do not exist. *)
Fixpoint joinTexts (sep : string) (xs : list (option string)) : option string :=
  match xs with
  | [] => Some EmptyString
  | [x] => x
  | x :: r =>
      match x, joinTexts sep r with
      | Some a, Some b => Some (a ++ sep ++ b)%string
      | _, _ => None
      end
  end.

(** [String(v)], [None] when the conversion throws a TypeError.  An array
    prints its elements with commas between them, [null] among them as the
    empty text.  An object prints through the [toString] that it inherits;
    when it has a property of its own under that name, which as a value of
    JSON cannot be called, no conversion is left and a TypeError is
    thrown. *)
Fixpoint toText (j : json) : option string :=
  match j with
  | JNull => Some "null"
  | JBool true => Some "true"
  | JBool false => Some "false"
  | JNum z => Some (numberText z)
  | JStr s => Some s
  | JArr items =>
      joinTexts ","
        (List.map (fun x => match x with JNull => Some EmptyString | _ => toText x end)
                  items)
  | JObj fields =>
      if existsb (fun kv => String.eqb (fst kv) "toString") fields then None
      else Some "[object Object]"
  end.

(** The replacement of the export: every double quote becomes two. *)
Fixpoint doubleQuotes (s : string) : string :=
  match s with
  | EmptyString => EmptyString
  | String c r =>
      if Ascii.eqb c dquote then String dquote (String dquote (doubleQuotes r))
      else String c (doubleQuotes r)
  end.

(** The template literal of the export: the text between double quotes. *)
Definition quoteCell (s : string) : string :=
  String dquote (doubleQuotes s ++ String dquote EmptyString)%string.

Definition indexName (i : nat) : string := NilZero.string_of_uint (Nat.to_uint i).

(** The enumerable properties that a value other than [null] has itself,
    in the order of [Object.keys]: the fields of an object, the elements of
    an array and the characters of a string under their indices, none for
    a number or a boolean.  A [JObj] lists the properties of the object it
    stands for in that order, so its names are distinct and none of them is
    an array index. *)
Definition properties (j : json) : list (string * json) :=
  match j with
  | JObj fields => fields
  | JArr items => imap (fun i x => (indexName i, x)) items
  | JStr s =>
      imap (fun i c => (indexName i, JStr (String c EmptyString))) (list_ascii_of_string s)
  | _ => []
  end.

(** [Object.keys(row)], which throws on [null]. *)
Definition keys (row : json) : M (list string) :=
  match row with
  | JNull => throw TypeError
  | _ => ret (fst <$> properties row)
  end.

(** The property [h] that a value has itself: an enumerable one, or the
    [length] of an array or a string. *)
Definition own (row : json) (h : string) : option json :=
  match field h (properties row) with
  | Some v => Some v
  | None =>
      if String.eqb h "length"
      then match row with
           | JArr items => Some (JNum (Z.of_nat (List.length items)))
           | JStr s => Some (JNum (Z.of_nat (String.length s)))
           | _ => None
           end
      else None
  end.

(** What values inherit.  For a property [h] that [row] does not have
    itself but finds along its prototype chain (a function, as under
    [constructor], or the prototype, under [__proto__]), [inherited row h]
    is the text of [String(row[h] || '')]; it is [None] when there is no
    such property.  The names depend on the engine and its version. *)
Definition prototypes : Type := json -> string -> option string.

(** [String(row[h] || '')], [None] when it throws a TypeError: [null] has
    no properties, and the conversion of a value can fail. *)
Definition cellText (inherited : prototypes) (row : json) (h : string) : option string :=
  match row with
  | JNull => None
  | _ =>
      match own row h with
      | Some v => if falsy v then Some EmptyString else toText v
      | None => Some (default EmptyString (inherited row h))
      end
  end.

Definition orThrow {A} (x : option A) : M A :=
  match x with
  | Some a => ret a
  | None => throw TypeError
  end.

(** [xs.map(f)] for an [f] that may throw. *)
Fixpoint mapM {A B} (f : A -> M B) (xs : list A) : M (list B) :=
  match xs with
  | [] => ret []
  | x :: r =>
      let! y := f x in
      let! ys := mapM f r in
      ret (y :: ys)
  end.

(** [headers.map(h => ...).join(',')] *)
Definition csvRow (inherited : prototypes) (headers : list string) (row : json) :
    M string :=
  let! cells := mapM (fun h => let! s := orThrow (cellText inherited row h) in
                               ret (quoteCell s)) headers in
  ret (String.concat "," cells).

(** "Convert to CSV": [data] is an array whose first element is [first]. *)
Definition toCsv (inherited : prototypes) (first : json) (data : list json) : M string :=
  let! headers := keys first in
  let! lines := mapM (csvRow inherited headers) data in
  ret (String.concat (String newline EmptyString)
         (String.concat "," headers :: lines)).

Inductive exportReply :=
| Csv (filename text : string)
| NoData
| InvalidType.

(** The [switch] of the export route. *)
Definition exportFile (type : string) : option (string * string) :=
  if String.eqb type "leads" then Some (DATA_FILES.leads, "leads.csv")
  else if String.eqb type "contacts" then Some (DATA_FILES.contacts, "contacts.csv")
  else if String.eqb type "investors" then Some (DATA_FILES.investors, "investors.csv")
  else None.

(** The handler of [GET /api/export/:type].  It has no [try]: on [null]
    the access to [length] throws, and on an object, a number, a boolean
    or a string that is not empty [length] is not zero and the
    conversion throws, [data[0]] being [undefined] or [data.map] not a
    function. *)
Definition export (inherited : prototypes) (type : string) : M exportReply :=
  match exportFile type with
  | None => ret InvalidType
  | Some (file, filename) =>
      let! data := readData file in
      match data with
      | DArray [] => ret NoData
      | DArray (first :: rest) =>
          let! csv := toCsv inherited first (first :: rest) in
          ret (Csv filename csv)
      | DPrimitive (JStr EmptyString) => ret NoData
      | _ => throw TypeError
      end
  end.

Definition get_export (cfg : config) (authHeader : option string)
    (inherited : prototypes) (type : string) : M (guarded exportReply) :=
  behind cfg authHeader (export inherited type).

(** A reader of comma-separated values after RFC 4180, with the line
    feed as the line break: fields are separated by commas and records by
    line breaks; a field that starts with a double quote runs to the next
    double quote that is not doubled, and a doubled one stands for one. *)
Module Rfc4180.

Definition table := list (list string).

Definition addChar (c : ascii) (t : table) : table :=
  match t with
  | (f :: fs) :: rs => (String c f :: fs) :: rs
  | [] :: rs => [String c EmptyString] :: rs
  | [] => [[String c EmptyString]]
  end.

Definition newField (t : table) : table :=
  match t with
  | r :: rs => (EmptyString :: r) :: rs
  | [] => [[EmptyString; EmptyString]]
  end.

Definition newRecord (t : table) : table := [EmptyString] :: t.

Definition finish : table := [[EmptyString]].

Fixpoint bare (s : string) : table :=
  match s with
  | EmptyString => finish
  | String c r =>
      if Ascii.eqb c "," then newField (bare r)
      else if Ascii.eqb c newline then newRecord (bare r)
      else if Ascii.eqb c dquote then quoted r
      else addChar c (bare r)
  end
with quoted (s : string) : table :=
  match s with
  | EmptyString => finish
  | String c r =>
      if Ascii.eqb c dquote then afterQuote r
      else addChar c (quoted r)
  end
with afterQuote (s : string) : table :=
  match s with
  | EmptyString => finish
  | String c r =>
      if Ascii.eqb c dquote then addChar dquote (quoted r)
      else if Ascii.eqb c "," then newField (bare r)
      else if Ascii.eqb c newline then newRecord (bare r)
      else addChar c (bare r)
  end.

Definition read (s : string) : table := bare s.

End Rfc4180.

(** A header name that the first line of the export shows as it is. *)
Definition bareName (h : string) : bool :=
  Str.all (fun c => negb (Ascii.eqb c "," || Ascii.eqb c newline || Ascii.eqb c dquote)) h.

(** The cells of a row under the headers, as far as they convert. *)
Definition cellsOf (inherited : prototypes) (headers : list string) (row : json) :
    list string :=
  (fun h => default EmptyString (cellText inherited row h)) <$> headers.

(** Every cell of the row under the headers converts to text. *)
Definition printable (inherited : prototypes) (headers : list string) (row : json) :
    bool :=
  forallb (fun h => match cellText inherited row h with
                    | Some _ => true
                    | None => false
                    end) headers.

Definition isRecord (j : json) : Prop := exists fields, j = JObj fields.

(** A name made of digits, as the array indices are. *)
Definition indexLike (k : string) : bool :=
  negb (String.eqb k EmptyString) && Str.all Clock.isDigit k.

(** A value that the type holds as [JSON.parse] gives it: the numbers are
    integers up to [2^53] in size, which doubles hold exactly, and the
    names of an object are distinct and not made of digits, so that the
    order of the text is the order of [Object.keys]. *)
Fixpoint exact (j : json) : bool :=
  match j with
  | JNum z => (Z.abs z <=? 2 ^ 53)%Z
  | JArr items => forallb exact items
  | JObj fields =>
      bool_decide (NoDup (fst <$> fields)) &&
      forallb (fun kv => match kv with
                         | (k, v) => negb (indexLike k) && exact v
                         end) fields
  | _ => true
  end.

(** How V8 prints a built-in function. *)
Definition nativeFunction (name : string) : string :=
  ("function " ++ name ++ "() { [native code] }")%string.

Definition objectMethods : list string :=
  ["__defineGetter__"; "__defineSetter__"; "hasOwnProperty"; "__lookupGetter__";
   "__lookupSetter__"; "isPrototypeOf"; "propertyIsEnumerable"; "toString";
   "valueOf"; "toLocaleString"].

(** What rows that are objects inherit in V8, the properties of
    [Object.prototype]; of rows of other kinds this table lists nothing. *)
Definition objectsInV8 : prototypes :=
  fun row h =>
    match row with
    | JObj _ =>
        if String.eqb h "constructor" then Some (nativeFunction "Object")
        else if String.eqb h "__proto__" then Some "[object Object]"
        else if existsb (String.eqb h) objectMethods then Some (nativeFunction h)
        else None
    | _ => None
    end.

(** The characters of [s] put before the first field of a table. *)
Fixpoint addText (s : string) (t : Rfc4180.table) : Rfc4180.table :=
  match s with
  | EmptyString => t
  | String c r => Rfc4180.addChar c (addText r t)
  end.

(** One line of the export for the cells [cells]. *)
Definition lineOf (cells : list string) : string :=
  String.concat "," (quoteCell <$> cells).

(** A leads file whose second record lacks a name that objects inherit. *)
Definition withConstructor : world :=
  putContent DATA_FILES.leads
    (Json (DArray [JObj [("constructor", JStr "c1"); ("name", JStr "A")];
                   JObj [("name", JStr "B")]]))
    world0.

(** A leads file edited by hand: a name with a comma and a double quote,
    and a record without an id. *)
Definition handEdited : world :=
  putContent DATA_FILES.leads
    (Json (DArray [JObj [("id", JNum 7);
                         ("name", JStr ("Doe, " ++ String dquote "Jo"))];
                   JObj [("name", JNull)]]))
    world0.

(** ** Submissions with fields of any kind *)

(** The fields of [req.body] that the handlers read, as the body parser
    delivers them: a field is any value of JSON, and [None] when the body
    does not carry it.  A [body] is one whose fields are strings. *)
Record jsonBody := mkJsonBody {
  body_name : option json;
  body_email : option json;
  body_interest : option json;
  body_subject : option json;
  body_message : option json;
  body_company : option json;
  body_type : option json
}.

(** [!v || !v.trim()]: a value that is not falsy and not a string has no
    [trim], and the call throws a TypeError. *)
Definition blankValue (v : option json) : M bool :=
  match v with
  | None => ret true
  | Some (JStr s) => ret (String.eqb s EmptyString || String.eqb (Str.trim s) EmptyString)
  | Some j => if falsy j then ret true else throw TypeError
  end.

(** The text of a field for [isValidEmail] and [sanitize], which both
    convert it as [String] does; [None] for a falsy value, on which
    neither looks at the text. *)
Definition textOfValue (v : option json) : M (option string) :=
  match v with
  | None => ret None
  | Some j =>
      if falsy j then ret None
      else let! s := orThrow (toText j) in ret (Some s)
  end.

(** The handler of [POST /api/leads] on any body.  The two checks and the
    construction of the record run before the [try], so that what they
    throw escapes the handler and no reply is sent. *)
Definition leads_route (e : env) (r : jsonBody) : M response :=
  let! noName := blankValue (body_name r) in
  if noName then ret (BadRequest "Name is required")
  else
    let! email := textOfValue (body_email r) in
    if badEmail email then ret (BadRequest "Valid email is required")
    else
      let! name := textOfValue (body_name r) in
      let! interest := textOfValue (body_interest r) in
      save e DATA_FILES.leads
        (lead e (mkBody name email interest None None None None)).

Definition contact_route (e : env) (r : jsonBody) : M response :=
  let! noName := blankValue (body_name r) in
  if noName then ret (BadRequest "Name is required")
  else
    let! email := textOfValue (body_email r) in
    if badEmail email then ret (BadRequest "Valid email is required")
    else
      let! noMessage := blankValue (body_message r) in
      if noMessage then ret (BadRequest "Message is required")
      else
        let! name := textOfValue (body_name r) in
        let! subject := textOfValue (body_subject r) in
        let! message := textOfValue (body_message r) in
        save e DATA_FILES.contacts
          (contact e (mkBody name email None subject message None None)).

Definition investors_route (e : env) (r : jsonBody) : M response :=
  let! noName := blankValue (body_name r) in
  if noName then ret (BadRequest "Name is required")
  else
    let! email := textOfValue (body_email r) in
    if badEmail email then ret (BadRequest "Valid email is required")
    else
      let! name := textOfValue (body_name r) in
      let! company := textOfValue (body_company r) in
      let! type := textOfValue (body_type r) in
      let! message := textOfValue (body_message r) in
      save e DATA_FILES.investors
        (investor e (mkBody name email None None message company type)).

Definition route (c : collection) : env -> jsonBody -> M response :=
  match c with
  | Leads => leads_route
  | Contacts => contact_route
  | Investors => investors_route
  end.

(** A body of strings as the body parser delivers it. *)
Definition ofStrings (b : body) : jsonBody :=
  mkJsonBody (JStr <$> req_name b) (JStr <$> req_email b) (JStr <$> req_interest b)
             (JStr <$> req_subject b) (JStr <$> req_message b)
             (JStr <$> req_company b) (JStr <$> req_type b).

Definition isString (v : option json) : bool :=
  match v with
  | None | Some (JStr _) => true
  | Some _ => false
  end.

(** Every field of the body is a string or absent. *)
Definition strings (r : jsonBody) : bool :=
  isString (body_name r) && isString (body_email r) && isString (body_interest r) &&
  isString (body_subject r) && isString (body_message r) &&
  isString (body_company r) && isString (body_type r).

(** A lead with a number for a name. *)
Definition numericName : jsonBody :=
  mkJsonBody (Some (JNum 123)) (Some (JStr "jo@x.com")) None None None None None.

(** ** The analytics summary *)

(** The inner loop of the summary over the pages of one day:
    [totalViews += count]. *)
Definition addCounts (pages : gmap string Z) (total : Z) : Z :=
  map_fold (fun _ count total => (total + count)%Z) total pages.

Definition totalViewsOf (pv : gmap string (gmap string Z)) : Z :=
  map_fold (fun _ pages total => addCounts pages total) 0%Z pv.

(** [if (date === dateKey) todayViews += count], in the same loops. *)
Definition todayViewsOf (dateKey : string) (pv : gmap string (gmap string Z)) : Z :=
  map_fold
    (fun date pages today =>
       map_fold (fun _ count today =>
                   if String.eqb date dateKey then (today + count)%Z else today)
                today pages)
    0%Z pv.

(** The body of [GET /api/analytics] without [topPages], whose order
    among pages of equal counts is the order in which the properties were
    created, which a map does not record. *)
Record analyticsSummary := mkSummary {
  totalViews : Z;
  todayViews : Z;
  daily : gmap string (gmap string Z);
  recentReferrers : list referrer
}.

(** On an array, a number, a boolean or a string the properties
    [pageViews] and [referrers] are [undefined]; on [null] the access
    throws, and the route has no [try]. *)
Definition summarise (dateKey : string) (doc : document) : M analyticsSummary :=
  match doc with
  | DNull => throw TypeError
  | DObject a =>
      let pv := default ∅ (pageViews a) in
      ret (mkSummary (totalViewsOf pv) (todayViewsOf dateKey pv) pv
             (take 20 (default [] (referrers a))))
  | _ => ret (mkSummary 0 0 ∅ [])
  end.

Definition get_analytics (cfg : config) (authHeader : option string) (e : env) :
    M (guarded analyticsSummary) :=
  behind cfg authHeader
    (let! analytics := readData DATA_FILES.analytics in
     summarise (Clock.getDateKey (now e 0)) analytics).

(** The count of [page] on the day [dateKey], zero where there is none. *)
Definition viewsOn (pv : gmap string (gmap string Z)) (dateKey page : string) : Z :=
  default 0%Z (pv !! dateKey ≫= fun pages => pages !! page).

(** The date key of day [n] after 1 January 1970. *)
Definition keyOfDay (n : nat) : string := Clock.dateString (Clock.dateOfDay n).


(** * Properties *)

(** ** Strings *)



Lemma append_cons c s t : (String c s ++ t)%string = String c (s ++ t)%string.
Proof. reflexivity. Qed.

Lemma append_empty t : (EmptyString ++ t)%string = t.
Proof. reflexivity. Qed.

Lemma all_app p s t : Str.all p (s ++ t)%string = Str.all p s && Str.all p t.
Proof.
  induction s as [|c s IH]; [reflexivity|].
  rewrite append_cons. cbn [Str.all]. rewrite IH. apply andb_assoc.
Qed.

Lemma dotInside_sound s : forall seen,
  dotInside seen s = true ->
  exists b c, s = (b ++ "." ++ c)%string /\ c <> EmptyString /\
              (seen = false -> b <> EmptyString).
Proof.
  induction s as [|ch s IH]; intros seen; cbn [dotInside]; [discriminate|].
  intros [H|H]%orb_true_iff.
  - apply andb_true_iff in H as [[-> ->%Ascii.eqb_eq]%andb_true_iff Hne].
    exists EmptyString, s. split; [reflexivity|]. split; [|discriminate].
    intros ->. discriminate.
  - destruct (IH true H) as (b & c & -> & Hc & _).
    exists (String ch b), c. split; [reflexivity|]. split; [exact Hc|]. discriminate.
Qed.

Lemma dotInside_complete b c : forall seen,
  c <> EmptyString -> (seen = false -> b <> EmptyString) ->
  dotInside seen (b ++ "." ++ c)%string = true.
Proof.
  induction b as [|ch b IH]; intros seen Hc Hb.
  - destruct seen; [|exfalso; now apply Hb].
    rewrite append_empty, append_cons, append_empty. cbn [dotInside andb].
    change (Ascii.eqb "." ".") with true.
    destruct c; [congruence|reflexivity].
  - rewrite append_cons. cbn [dotInside]. apply orb_true_iff. right.
    apply IH; [exact Hc|discriminate].
Qed.

Lemma emailFrom_sound s : forall n,
  emailFrom n s = true ->
  exists a d, s = (a ++ "@" ++ d)%string /\ Str.all emailChar a = true /\
              (n = 0 -> a <> EmptyString) /\ emailDomain d = true.
Proof.
  induction s as [|ch s IH]; intros n; cbn [emailFrom]; [discriminate|].
  destruct (Ascii.eqb ch "@") eqn:Hat.
  - apply Ascii.eqb_eq in Hat as ->. intros [Hn Hd]%andb_true_iff.
    exists EmptyString, s. repeat split; [|exact Hd].
    intros ->. discriminate.
  - destruct (Str.isWhiteSpace ch) eqn:Hws; [discriminate|]. intros H.
    destruct (IH (S n) H) as (a & d & -> & Ha & _ & Hd).
    exists (String ch a), d. split; [reflexivity|]. split; [|split; [discriminate|exact Hd]].
    cbn [Str.all]. unfold emailChar at 1. now rewrite Hws, Hat, Ha.
Qed.

Lemma emailFrom_complete a d : forall n,
  Str.all emailChar a = true -> (n = 0 -> a <> EmptyString) ->
  emailDomain d = true ->
  emailFrom n (a ++ "@" ++ d)%string = true.
Proof.
  induction a as [|ch a IH]; intros n Ha Hn Hd.
  - rewrite append_empty, append_cons, append_empty. cbn [emailFrom].
    change (Ascii.eqb "@" "@") with true. cbv iota. rewrite Hd.
    destruct n; [exfalso; now apply Hn|reflexivity].
  - rewrite append_cons. cbn [emailFrom]. cbn [Str.all] in Ha.
    apply andb_true_iff in Ha as [Hch Ha]. unfold emailChar in Hch.
    apply andb_true_iff in Hch as [Hws Hat].
    apply negb_true_iff in Hws, Hat. rewrite Hat, Hws.
    apply IH; [exact Ha|discriminate|exact Hd].
Qed.

(** [isValidEmail] accepts the strings that [emailRegex] matches. *)
Lemma isValidEmail_spec s : isValidEmail s = true <-> emailRegex s.
Proof.
  unfold isValidEmail, emailRegex. split.
  - intros H. apply emailFrom_sound in H as (a & d & -> & Ha & Hne & Hd).
    unfold emailDomain in Hd. apply andb_true_iff in Hd as [Hall Hdot].
    apply dotInside_sound in Hdot as (b & c & -> & Hc & Hb).
    rewrite !all_app in Hall. apply andb_true_iff in Hall as [Hb' Hc'].
    apply andb_true_iff in Hc' as [_ Hc'].
    exists a, b, c. repeat split; auto.
  - intros (a & b & c & -> & Ha & Hb & Hc & Halla & Hallb & Hallc).
    apply emailFrom_complete; [exact Halla|auto|].
    unfold emailDomain. rewrite !all_app, Hallb, Hallc.
    rewrite dotInside_complete by auto. reflexivity.
Qed.

(** ** The calendar *)

Lemma nextDay_valid d : Clock.validDate d -> Clock.validDate (Clock.nextDay d).
Proof.
  destruct d as [y m dd]. unfold Clock.validDate, Clock.nextDay.
  cbn [Clock.year Clock.month Clock.dayOfMonth]. intros [Hm Hd].
  destruct (N.ltb_spec dd (Clock.daysInMonth y m)) as [Hlt|Hge];
    cbn [Clock.year Clock.month Clock.dayOfMonth]; [lia|].
  destruct (N.ltb_spec m 12) as [Hm12|Hm12]; cbn [Clock.year Clock.month Clock.dayOfMonth].
  - split; [lia|]. split; [lia|].
    unfold Clock.daysInMonth.
    repeat match goal with |- context [if ?b then _ else _] => destruct b end; lia.
  - split; [lia|]. unfold Clock.daysInMonth. cbn. lia.
Qed.

Lemma nextDay_later d : Clock.validDate d -> Clock.dateBefore d (Clock.nextDay d).
Proof.
  destruct d as [y m dd]. unfold Clock.validDate, Clock.dateBefore, Clock.nextDay.
  cbn [Clock.year Clock.month Clock.dayOfMonth]. intros [Hm Hd].
  destruct (N.ltb_spec dd (Clock.daysInMonth y m)) as [Hlt|Hge];
    cbn [Clock.year Clock.month Clock.dayOfMonth]; [lia|].
  destruct (N.ltb_spec m 12); cbn [Clock.year Clock.month Clock.dayOfMonth]; lia.
Qed.

Lemma dateBefore_trans a b c :
  Clock.dateBefore a b -> Clock.dateBefore b c -> Clock.dateBefore a c.
Proof. unfold Clock.dateBefore. lia. Qed.

Lemma dateOfDay_S n : Clock.dateOfDay (S n) = Clock.nextDay (Clock.dateOfDay n).
Proof. reflexivity. Qed.

Lemma dateOfDay_valid n : Clock.validDate (Clock.dateOfDay n).
Proof.
  induction n as [|n IH]; [unfold Clock.validDate; cbn; lia|].
  rewrite dateOfDay_S. now apply nextDay_valid.
Qed.

(** A later day has a later date. *)
Lemma dateOfDay_mono n m :
  (n < m)%nat -> Clock.dateBefore (Clock.dateOfDay n) (Clock.dateOfDay m).
Proof.
  induction 1 as [|m Hle IH]; rewrite dateOfDay_S.
  - apply nextDay_later, dateOfDay_valid.
  - eapply dateBefore_trans; [exact IH|]. apply nextDay_later, dateOfDay_valid.
Qed.

Lemma dateBefore_year a b : Clock.dateBefore a b -> (Clock.year a <= Clock.year b)%N.
Proof. unfold Clock.dateBefore. lia. Qed.


Lemma daysInMonth_le y m : (Clock.daysInMonth y m <= 31)%N.
Proof.
  unfold Clock.daysInMonth.
  repeat match goal with |- context [if ?b then _ else _] => destruct b end; lia.
Qed.

(** ** Date keys in the order of strings *)

Lemma digit_isDigit n : Clock.isDigit (Clock.digit n) = true.
Proof.
  unfold Clock.digit.
  assert (H : (n mod 10 < 10)%N) by (apply N.mod_lt; discriminate).
  destruct (n mod 10)%N as [|p]; [reflexivity|].
  do 4 (destruct p as [p|p|]; try reflexivity; try (exfalso; lia)).
Qed.

(** [toISOString] prints the 24 characters of the ISO-8601 shape. *)
Lemma toISOString_shape ms : Clock.isISO8601 (Clock.toISOString ms) = true.
Proof.
  unfold Clock.isISO8601, Clock.toISOString, Clock.dateString,
    Clock.pad4, Clock.pad3, Clock.pad2.
  cbv [String.append].
  cbn -[Clock.digit Clock.isDigit N.div N.modulo Clock.dateOfDay].
  rewrite !digit_isDigit. reflexivity.
Qed.

Lemma N_of_digit n : N_of_ascii (Clock.digit n) = (48 + n mod 10)%N.
Proof.
  unfold Clock.digit. apply N_ascii_embedding.
  assert (n mod 10 < 10)%N by (apply N.mod_lt; discriminate). lia.
Qed.

Lemma compare_digit a b :
  Ascii.compare (Clock.digit a) (Clock.digit b) = (a mod 10 ?= b mod 10)%N.
Proof.
  unfold Ascii.compare. rewrite !N_of_digit.
  destruct (N.compare_spec (a mod 10) (b mod 10));
    [apply N.compare_eq_iff|apply N.compare_lt_iff|apply N.compare_gt_iff]; lia.
Qed.

Lemma compare_cons c1 c2 s1 s2 :
  String.compare (String c1 s1) (String c2 s2) =
    match Ascii.compare c1 c2 with
    | Eq => String.compare s1 s2
    | r => r
    end.
Proof. reflexivity. Qed.

(** Two decimal digits. *)
Lemma two_digits a :
  (a < 100)%N ->
  exists q r, (a = 10 * q + r /\ q < 10 /\ r < 10 /\
               (a / 10) mod 10 = q /\ a mod 10 = r)%N.
Proof.
  intros Ha. exists (a / 10)%N, (a mod 10)%N.
  pose proof (N.Div0.div_mod a 10) as Hdm.
  pose proof (N.mod_lt a 10 ltac:(discriminate)) as Hr.
  assert (Hq : (a / 10 < 10)%N) by (apply N.Div0.div_lt_upper_bound; exact Ha).
  rewrite (N.mod_small _ _ Hq). repeat split; assumption.
Qed.

Lemma compare_pad2 a b s1 s2 :
  (a < 100)%N -> (b < 100)%N ->
  String.compare (Clock.pad2 a ++ s1)%string (Clock.pad2 b ++ s2)%string =
    match (a ?= b)%N with
    | Eq => String.compare s1 s2
    | r => r
    end.
Proof.
  intros Ha Hb. unfold Clock.pad2. cbv [String.append].
  fold String.append. rewrite !compare_cons, !compare_digit.
  change ((EmptyString ++ ?s)%string) with s.
  destruct (two_digits a Ha) as (qa & ra & Hea & Hqa & Hra & -> & ->).
  destruct (two_digits b Hb) as (qb & rb & Heb & Hqb & Hrb & -> & ->).
  destruct (N.compare_spec qa qb) as [He|Hl|Hg].
  - destruct (N.compare_spec ra rb) as [He'|Hl'|Hg'].
    + replace a with b by lia. now rewrite N.compare_refl.
    + assert (a < b)%N as ->%N.compare_lt_iff by lia. reflexivity.
    + assert (b < a)%N as ->%N.compare_gt_iff by lia. reflexivity.
  - assert (a < b)%N as ->%N.compare_lt_iff by lia. reflexivity.
  - assert (b < a)%N as ->%N.compare_gt_iff by lia. reflexivity.
Qed.

(** A year below 10000 is a pair of two-digit numbers. *)
Lemma pad4_split y :
  Clock.pad4 y = (Clock.pad2 (y / 100) ++ Clock.pad2 y)%string.
Proof.
  unfold Clock.pad4, Clock.pad3, Clock.pad2. cbv [String.append].
  unfold Clock.digit. rewrite !N.Div0.div_div. reflexivity.
Qed.

Lemma pad2_mod n : Clock.pad2 n = Clock.pad2 (n mod 100).
Proof.
  unfold Clock.pad2, Clock.digit.
  change 100%N with (10 * 10)%N. rewrite N.Div0.mod_mul_r.
  assert (H1 : ((n mod 10 + 10 * ((n / 10) mod 10)) / 10 = (n / 10) mod 10)%N).
  { rewrite (N.mul_comm 10), N.div_add by discriminate.
    rewrite N.div_small by (apply N.mod_lt; discriminate). reflexivity. }
  assert (H2 : ((n mod 10 + 10 * ((n / 10) mod 10)) mod 10 = n mod 10)%N).
  { rewrite (N.mul_comm 10), N.Div0.mod_add. apply N.Div0.mod_mod. }
  rewrite H1, H2, N.Div0.mod_mod. reflexivity.
Qed.

Lemma compare_pad4 a b s1 s2 :
  (a < 10000)%N -> (b < 10000)%N ->
  String.compare (Clock.pad4 a ++ s1)%string (Clock.pad4 b ++ s2)%string =
    match (a ?= b)%N with
    | Eq => String.compare s1 s2
    | r => r
    end.
Proof.
  intros Ha Hb. rewrite !pad4_split.
  rewrite (pad2_mod a), (pad2_mod b).
  assert (Happ : forall x y s,
    ((Clock.pad2 x ++ Clock.pad2 y) ++ s = Clock.pad2 x ++ (Clock.pad2 y ++ s))%string)
    by reflexivity.
  rewrite !Happ.
  pose proof (N.Div0.div_mod a 100) as Hda. pose proof (N.Div0.div_mod b 100) as Hdb.
  pose proof (N.mod_lt a 100 ltac:(discriminate)) as Hra.
  pose proof (N.mod_lt b 100 ltac:(discriminate)) as Hrb.
  assert (Hqa : (a / 100 < 100)%N) by (apply N.Div0.div_lt_upper_bound; exact Ha).
  assert (Hqb : (b / 100 < 100)%N) by (apply N.Div0.div_lt_upper_bound; exact Hb).
  rewrite !compare_pad2 by assumption.
  generalize dependent (a / 100)%N. generalize dependent (a mod 100)%N.
  generalize dependent (b / 100)%N. generalize dependent (b mod 100)%N.
  intros rb Hrb qb Hdb Hqb ra Hra qa Hda Hqa.
  destruct (N.compare_spec qa qb) as [He|Hl|Hg].
  - destruct (N.compare_spec ra rb) as [He'|Hl'|Hg'].
    + replace a with b by lia. now rewrite N.compare_refl.
    + assert (a < b)%N as ->%N.compare_lt_iff by lia. reflexivity.
    + assert (b < a)%N as ->%N.compare_gt_iff by lia. reflexivity.
  - assert (a < b)%N as ->%N.compare_lt_iff by lia. reflexivity.
  - assert (b < a)%N as ->%N.compare_gt_iff by lia. reflexivity.
Qed.

(** On dates of four-digit years, the order of the keys as strings is the
    order of (year, month, day). *)
Lemma compare_dateString a b :
  Clock.validDate a -> Clock.validDate b ->
  (Clock.year a < 10000)%N -> (Clock.year b < 10000)%N ->
  String.compare (Clock.dateString a) (Clock.dateString b) =
    match (Clock.year a ?= Clock.year b)%N with
    | Eq => match (Clock.month a ?= Clock.month b)%N with
            | Eq => (Clock.dayOfMonth a ?= Clock.dayOfMonth b)%N
            | r => r
            end
    | r => r
    end.
Proof.
  intros [Hma Hda] [Hmb Hdb] Hya Hyb. unfold Clock.dateString.
  pose proof (daysInMonth_le (Clock.year a) (Clock.month a)).
  pose proof (daysInMonth_le (Clock.year b) (Clock.month b)).
  assert (Hdash : forall s, ("-" ++ s)%string = String "-" s) by reflexivity.
  rewrite compare_pad4 by assumption.
  rewrite !Hdash, !compare_cons.
  change (Ascii.compare "-" "-") with Eq. cbv iota.
  rewrite compare_pad2 by lia. rewrite !compare_cons.
  change (Ascii.compare "-" "-") with Eq. cbv iota.
  change (Clock.pad2 (Clock.dayOfMonth a))
    with (Clock.pad2 (Clock.dayOfMonth a) ++ EmptyString)%string.
  change (Clock.pad2 (Clock.dayOfMonth b))
    with (Clock.pad2 (Clock.dayOfMonth b) ++ EmptyString)%string.
  rewrite compare_pad2 by lia.
  destruct (Clock.dayOfMonth a ?= Clock.dayOfMonth b)%N; reflexivity.
Qed.

Lemma dateString_lt a b :
  Clock.validDate a -> Clock.validDate b ->
  (Clock.year b < 10000)%N ->
  Clock.dateBefore a b ->
  Str.lt (Clock.dateString a) (Clock.dateString b) = true.
Proof.
  intros Va Vb Hy Hab. unfold Str.lt, String.ltb.
  pose proof (dateBefore_year a b Hab) as Hyab.
  rewrite compare_dateString by (assumption || lia).
  unfold Clock.dateBefore in Hab.
  destruct (N.compare_spec (Clock.year a) (Clock.year b)); [|reflexivity|lia].
  destruct (N.compare_spec (Clock.month a) (Clock.month b)); [|reflexivity|lia].
  destruct (N.compare_spec (Clock.dayOfMonth a) (Clock.dayOfMonth b)); [lia|reflexivity|lia].
Qed.

Lemma lt_asym a b : Str.lt a b = true -> Str.lt b a = false.
Proof.
  unfold Str.lt, String.ltb. rewrite (String.compare_antisym b a).
  destruct (String.compare a b); cbn; congruence.
Qed.

Lemma lt_irrefl a : Str.lt a a = false.
Proof.
  unfold Str.lt, String.ltb.
  pose proof (String.compare_antisym a a) as H.
  destruct (String.compare a a); cbn in H; congruence.
Qed.

Lemma digit_not_T n : Ascii.eqb (Clock.digit n) "T" = false.
Proof.
  apply Ascii.eqb_neq. intros H. apply (f_equal N_of_ascii) in H.
  rewrite N_of_digit in H. cbn in H.
  pose proof (N.mod_lt n 10 ltac:(discriminate)) as Hlt.
  generalize dependent (n mod 10)%N. intros. lia.
Qed.

(** The date key is the date of the day the clock shows. *)
Lemma getDateKey_spec ms :
  Clock.getDateKey ms = Clock.dateString (Clock.dateOfDay (Clock.dayNumber ms)).
Proof.
  unfold Clock.getDateKey, Clock.toISOString, Clock.dateString,
    Clock.pad4, Clock.pad3, Clock.pad2.
  cbv [String.append]. cbn [Clock.beforeT].
  rewrite !digit_not_T. reflexivity.
Qed.

Lemma dayNumber_week_before ms :
  (7 * Clock.msPerDay <= ms)%N ->
  Clock.dayNumber (ms - 7 * Clock.msPerDay) = (Clock.dayNumber ms - 7)%nat.
Proof.
  intros H. unfold Clock.dayNumber.
  assert (Hq : ((ms - 7 * Clock.msPerDay) / Clock.msPerDay = ms / Clock.msPerDay - 7)%N).
  { pose proof (N.Div0.div_mod ms Clock.msPerDay) as Hdm.
    pose proof (N.mod_lt ms Clock.msPerDay ltac:(discriminate)) as Hr.
    symmetry. apply (N.div_unique _ _ _ (ms mod Clock.msPerDay)); [exact Hr|].
    assert (7 <= ms / Clock.msPerDay)%N
      by (apply N.div_le_lower_bound; [discriminate|]; rewrite N.mul_comm; exact H).
    unfold Clock.msPerDay in *.
    generalize dependent (ms / 86400000)%N. generalize dependent (ms mod 86400000)%N.
    intros. lia. }
  rewrite Hq. lia.
Qed.

(** The cutoff key is the date of the day seven days earlier. *)
Lemma cutoffKey_spec z ms :
  (7 * Clock.msPerDay <= ms)%N ->
  Clock.steady z 7 ms ->
  Clock.cutoffKey z ms = Clock.dateString (Clock.dateOfDay (Clock.dayNumber ms - 7)).
Proof.
  intros H Hz. unfold Clock.cutoffKey, Clock.setDateBack. cbv zeta.
  unfold Clock.steady in Hz. rewrite Hz.
  replace (Z.of_N ms + Clock.offsetAtUTC z (Z.of_N ms) - 7 * Z.of_N Clock.msPerDay -
           Clock.offsetAtUTC z (Z.of_N ms))%Z
    with (Z.of_N (ms - 7 * Clock.msPerDay)) by lia.
  unfold Clock.toISOStringAt.
  rewrite (proj2 (Z.leb_le 0 _)) by lia. rewrite N2Z.id.
  fold (Clock.getDateKey (ms - 7 * Clock.msPerDay)).
  now rewrite getDateKey_spec, dayNumber_week_before.
Qed.

(** Day [n] is before day [m], which lies in a year of four digits: the
    keys of the two days are in the order of strings. *)
Lemma dateKey_lt n m :
  (n < m)%nat -> (Clock.year (Clock.dateOfDay m) < 10000)%N ->
  Str.lt (Clock.dateString (Clock.dateOfDay n)) (Clock.dateString (Clock.dateOfDay m)) = true.
Proof.
  intros Hnm Hy. apply dateString_lt; auto using dateOfDay_valid, dateOfDay_mono.
Qed.

Lemma dateKey_not_lt n m :
  (m <= n)%nat -> (Clock.year (Clock.dateOfDay n) < 10000)%N ->
  Str.lt (Clock.dateString (Clock.dateOfDay n)) (Clock.dateString (Clock.dateOfDay m)) = false.
Proof.
  intros Hmn Hy. destruct (decide (m = n)) as [->|Hne]; [apply lt_irrefl|].
  apply lt_asym, dateKey_lt; [lia|exact Hy].
Qed.

(** ** Files and the lock *)

Lemma world_eta w : mkWorld (disk w) (held w) = w.
Proof. destruct w; reflexivity. Qed.

Lemma held_restore (file : string) (h : gset string) :
  file ∉ h -> ({[file]} ∪ h) ∖ {[file]} = h.
Proof. set_solver. Qed.

Lemma stored_putContent file c w : stored file (putContent file c w) = Some c.
Proof.
  unfold stored, putContent. cbn [disk]. rewrite lookup_insert_eq.
  destruct (disk w !! file); reflexivity.
Qed.

Lemma stored_putContent_ne file g c w :
  file <> g -> stored g (putContent file c w) = stored g w.
Proof.
  intros H. unfold stored, putContent. cbn [disk]. now rewrite lookup_insert_ne.
Qed.

Lemma held_putContent file c w : held (putContent file c w) = held w.
Proof. reflexivity. Qed.

Lemma disk_putContent file c w n :
  disk w !! file = Some n ->
  disk (putContent file c w) !! file = Some (mkNode (readable n) c).
Proof. intros H. unfold putContent. cbn [disk]. rewrite H. apply lookup_insert_eq. Qed.

Lemma readData_pure file w : fst (readData file w) = w.
Proof.
  unfold readData, tryCatch, bind, readFileSync, JSON_parse, ret, throw.
  destruct (disk w !! file) as [[[] []]|]; reflexivity.
Qed.

Lemma readData_returns file w : exists d, readData file w = (w, Return d).
Proof.
  unfold readData, tryCatch, bind, readFileSync, JSON_parse, ret, throw.
  destruct (disk w !! file) as [[[] []]|]; eauto.
Qed.

Lemma readData_stored file w d :
  disk w !! file = Some (mkNode true (Json d)) -> readData file w = (w, Return d).
Proof.
  intros H. unfold readData, tryCatch, bind, readFileSync. rewrite H. reflexivity.
Qed.


Lemma readData_object file w a :
  snd (readData file w) = Return (DObject a) ->
  stored file w = Some (Json (DObject a)).
Proof.
  unfold readData, tryCatch, bind, readFileSync, JSON_parse, ret, throw, stored.
  destruct (disk w !! file) as [[[] [|d]]|]; cbn; intros [= H]; now subst.
Qed.

(** The lock is obtained when at most [lockRetries] attempts find it taken. *)
Lemma attemptLock_spec r b : attemptLock r b = (b <=? r)%nat.
Proof.
  revert r. induction b as [|b IH]; intros r; [reflexivity|].
  destruct r as [|r]; [reflexivity|]. cbn [attemptLock]. rewrite IH. reflexivity.
Qed.

(** [writeData] when the lock is obtained: the write runs, and the lock is
    released whatever the write does. *)
Lemma writeData_acquired e file d w :
  is_Some (disk w !! file) -> file ∉ held w ->
  attemptLock lockRetries (lockBusy e) = true ->
  writeData e file d w =
    match writeResult e with
    | WriteOk => (putContent file (Json d) w, Return tt)
    | FailsAtOpen => (w, Throw EACCES)
    | FailsMidway => (putContent file Malformed w, Throw EIO)
    end.
Proof.
  intros Hex Hfree Hlock. unfold writeData, lockfile_lock, acquire, existsSync.
  rewrite (bool_decide_eq_true_2 _ Hex). cbn [negb]. rewrite Hlock.
  rewrite (bool_decide_eq_false_2 _ Hfree).
  unfold tryFinally, writeFileSync, release, putContent.
  destruct (writeResult e); cbn [disk held]; rewrite held_restore by assumption;
    try reflexivity.
  now rewrite world_eta.
Qed.

(** [writeData] when [lockfile.lock] rejects: nothing is written and no lock
    is left behind. *)
Lemma writeData_refused e file d w :
  disk w !! file = None \/ file ∈ held w \/ attemptLock lockRetries (lockBusy e) = false ->
  exists err, writeData e file d w = (w, Throw err).
Proof.
  intros H. unfold writeData, lockfile_lock, acquire, existsSync.
  destruct (disk w !! file) as [n|] eqn:Hn.
  - rewrite bool_decide_eq_true_2 by eauto. cbn [negb].
    destruct (attemptLock lockRetries (lockBusy e)) eqn:Ha.
    + destruct H as [H|[H|H]]; try discriminate.
      rewrite (bool_decide_eq_true_2 _ H). eauto.
    + eauto.
  - rewrite bool_decide_eq_false_2 by (intros [? ?]; discriminate). cbn [negb]. eauto.
Qed.

(** The two ways of [writeData]: the lock is refused, or it is obtained
    and the write runs. *)
Lemma writeData_cases e file d w :
  (exists err, writeData e file d w = (w, Throw err)) \/
  (is_Some (disk w !! file) /\ (file ∉ held w) /\
   attemptLock lockRetries (lockBusy e) = true /\
   writeData e file d w =
     match writeResult e with
     | WriteOk => (putContent file (Json d) w, Return tt)
     | FailsAtOpen => (w, Throw EACCES)
     | FailsMidway => (putContent file Malformed w, Throw EIO)
     end).
Proof.
  destruct (disk w !! file) as [n|] eqn:Hn;
    [|left; apply writeData_refused; auto].
  destruct (decide (file ∈ held w)) as [Hh|Hh];
    [left; apply writeData_refused; auto|].
  destruct (attemptLock lockRetries (lockBusy e)) eqn:Ha;
    [|left; apply writeData_refused; auto].
  assert (Hex : is_Some (disk w !! file)) by (rewrite Hn; eauto).
  right. repeat split; auto. now apply writeData_acquired.
Qed.

Lemma writeData_held e file d w : held (fst (writeData e file d w)) = held w.
Proof.
  destruct (writeData_cases e file d w) as [[err ->]|(_ & _ & _ & ->)];
    [reflexivity|].
  destruct (writeResult e); reflexivity.
Qed.

Lemma writeData_stored e file d w g :
  stored g (fst (writeData e file d w)) = stored g w \/
  (g = file /\ (stored g (fst (writeData e file d w)) = Some (Json d) \/
                stored g (fst (writeData e file d w)) = Some Malformed)).
Proof.
  destruct (writeData_cases e file d w) as [[err ->]|(_ & _ & _ & ->)];
    [auto|].
  destruct (decide (file = g)) as [->|Hne].
  - destruct (writeResult e); cbn [fst]; rewrite ?stored_putContent; auto.
  - destruct (writeResult e); cbn [fst];
      rewrite ?stored_putContent_ne by assumption; auto.
Qed.

(** ** Reading a collection *)

(** C6. When the file is missing, cannot be read or holds text that is
    not JSON, [readData] returns the empty array, without an exception and
    without a change to the files or the locks. *)
Theorem C6_readData_fallback file w :
  disk w !! file = None \/
  (exists n, disk w !! file = Some n /\ (readable n = false \/ data n = Malformed)) ->
  readData file w = (w, Return (DArray [])).
Proof.
  intros H. unfold readData, tryCatch, bind, readFileSync.
  destruct H as [H | (n & H & Hn)]; rewrite H; [reflexivity|].
  destruct Hn as [Hn|Hn].
  - rewrite Hn. reflexivity.
  - destruct (readable n); [|reflexivity]. rewrite Hn. reflexivity.
Qed.

(** C6 at a data directory without [leads.json]. *)
Lemma C6_readData_fallback_witness :
  readData DATA_FILES.leads (mkWorld ∅ ∅) = (mkWorld ∅ ∅, Return (DArray [])).
Proof. apply C6_readData_fallback. left. reflexivity. Defined.

(** C9. Two calls of [readData] with no write in between return the same
    value; the second starts from the state the first found, which neither
    changes, and neither throws. *)
Theorem C9_readData_twice file w :
  snd (readData file (fst (readData file w))) = snd (readData file w) /\
  fst (readData file (fst (readData file w))) = w /\
  exists d, snd (readData file w) = Return d.
Proof.
  rewrite !readData_pure. repeat split.
  destruct (readData_returns file w) as [d Hd]. exists d. now rewrite Hd.
Qed.

(** ** Start-up *)

Lemma initFile_lookup w f g :
  disk (initFile w f) !! g =
    if decide (f = g)
    then match disk w !! g with
         | Some n => Some n
         | None => Some (mkNode true (Json (DArray [])))
         end
    else disk w !! g.
Proof.
  unfold initFile, existsSync. case_decide as Hfg.
  - subst g. destruct (disk w !! f) as [n|] eqn:Hn.
    + rewrite bool_decide_eq_true_2 by eauto. now rewrite Hn.
    + rewrite bool_decide_eq_false_2 by (intros [? ?]; discriminate).
      unfold putContent. cbn [disk]. rewrite Hn. apply lookup_insert_eq.
  - case_bool_decide; [reflexivity|].
    unfold putContent. cbn [disk]. now apply lookup_insert_ne.
Qed.

(** Every data file that is absent at start-up is created with the empty
    array. *)
Lemma initDataFiles_absent w file :
  file ∈ DATA_FILES.values -> disk w !! file = None ->
  disk (initDataFiles w) !! file = Some (mkNode true (Json (DArray []))).
Proof.
  intros Hin Hnone. unfold initDataFiles, DATA_FILES.values. cbn [foldl].
  rewrite !initFile_lookup, Hnone.
  unfold DATA_FILES.values in Hin.
  repeat (apply elem_of_cons in Hin as [->|Hin]);
    [ | | | | apply elem_of_nil in Hin; contradiction ];
    repeat (case_decide; try discriminate; try reflexivity); congruence.
Qed.

(** C7. At start-up an absent [analytics.json] is written with the text
    of the empty array, like the three collection files: it is not
    initialised to an empty object. *)
Theorem C7_analytics_initialised_as_array w :
  disk w !! DATA_FILES.analytics = None ->
  stored DATA_FILES.analytics (initDataFiles w) = Some (Json (DArray [])) /\
  stored DATA_FILES.analytics (initDataFiles w) <> Some (Json (DObject emptyObject)).
Proof.
  intros H. unfold stored.
  rewrite (initDataFiles_absent w DATA_FILES.analytics);
    [split; [reflexivity|discriminate] | | exact H].
  unfold DATA_FILES.values. set_solver.
Qed.

(** C7 at an empty data directory. *)
Lemma C7_analytics_initialised_as_array_witness :
  stored DATA_FILES.analytics (initDataFiles (mkWorld ∅ ∅)) = Some (Json (DArray [])) /\
  stored DATA_FILES.analytics (initDataFiles (mkWorld ∅ ∅))
    <> Some (Json (DObject emptyObject)).
Proof. apply C7_analytics_initialised_as_array. reflexivity. Defined.

(** ** Submissions *)

(** The [try] block of a submission handler, by cases. *)
Lemma save_unfold e file r w :
  save e file r w =
    match snd (readData file w) with
    | Return (DArray items) =>
        match writeData e file (DArray (items ++ [r])) w with
        | (w', Return _) => (w', Return Success)
        | (w', Throw _) => (w', Return ServerError)
        end
    | _ => (w, Return ServerError)
    end.
Proof.
  destruct (readData_returns file w) as [d Hd].
  unfold save, tryCatch, bind. rewrite Hd. cbn [snd].
  destruct d; try reflexivity.
  cbn [push ret]. destruct (writeData e file _ w) as [w' [[]|err]]; reflexivity.
Qed.

Lemma save_success e file r w items n :
  disk w !! file = Some n ->
  snd (readData file w) = Return (DArray items) ->
  file ∉ held w ->
  attemptLock lockRetries (lockBusy e) = true ->
  writeResult e = WriteOk ->
  save e file r w = (putContent file (Json (DArray (items ++ [r]))) w, Return Success).
Proof.
  intros Hn Hr Hfree Hlock Hw. rewrite save_unfold, Hr.
  rewrite writeData_acquired by eauto. now rewrite Hw.
Qed.

Lemma save_Success_inv e file r w w' :
  save e file r w = (w', Return Success) ->
  exists items,
    snd (readData file w) = Return (DArray items) /\
    w' = putContent file (Json (DArray (items ++ [r]))) w /\
    (file ∉ held w) /\ is_Some (disk w !! file) /\
    attemptLock lockRetries (lockBusy e) = true /\ writeResult e = WriteOk.
Proof.
  rewrite save_unfold.
  destruct (snd (readData file w)) as [[items| | |]|] eqn:Hr; try discriminate.
  destruct (writeData_cases e file (DArray (items ++ [r])) w)
    as [[err ->]|(Hex & Hfree & Hlock & ->)]; [discriminate|].
  destruct (writeResult e); try discriminate.
  intros [= <-]. exists items. eauto 10.
Qed.



Lemma recordOf_email c e b :
  getField "email" (recordOf c e b) =
    Some (JStr (Str.toLowerCase (sanitize (req_email b) 254))).
Proof. destruct c; reflexivity. Qed.


(** C8. The lead of Jo, submitted to an empty [leads.json] while the lock
    is free and the write succeeds: the reply is the success reply and the
    file holds exactly one record, of type lead and interest racing, whose
    id is the reading of [Date.now()] and whose timestamp is the ISO-8601
    print of the clock at creation. *)
Theorem C8_lead_scenario e w :
  disk w !! DATA_FILES.leads = Some (mkNode true (Json (DArray []))) ->
  DATA_FILES.leads ∉ held w ->
  attemptLock lockRetries (lockBusy e) = true ->
  writeResult e = WriteOk ->
  exists w' r,
    post_leads e jo w = (w', Return Success) /\
    readData DATA_FILES.leads w' = (w', Return (DArray [r])) /\
    getField "type" r = Some (JStr "lead") /\
    getField "interest" r = Some (JStr "racing") /\
    getField "name" r = Some (JStr "Jo") /\
    getField "email" r = Some (JStr "jo@x.com") /\
    getField "id" r = Some (JNum (Z.of_N (now e 0))) /\
    (exists ts, getField "timestamp" r = Some (JStr ts) /\
                ts = Clock.toISOString (now e 1) /\ Clock.isISO8601 ts = true).
Proof.
  intros Hfile Hfree Hlock Hw.
  eexists _, (lead e jo). split; [|split].
  - unfold post_leads. cbn [blank badEmail jo req_name req_email].
    change (blank (Some "Jo")) with false. change (badEmail (Some "jo@x.com")) with false.
    cbv iota. eapply save_success; eauto.
    now rewrite (readData_stored _ _ _ Hfile).
  - apply readData_stored. unfold putContent. cbn [disk]. rewrite Hfile.
    cbn [readable app]. apply lookup_insert_eq.
  - repeat split; try reflexivity.
    eexists. repeat split. apply toISOString_shape.
Qed.

(** C8 on the data directory of a first start. *)
Lemma C8_lead_scenario_witness :
  exists w' r,
    post_leads (calm 1793591645123) jo world0 = (w', Return Success) /\
    readData DATA_FILES.leads w' = (w', Return (DArray [r])) /\
    getField "type" r = Some (JStr "lead") /\
    getField "interest" r = Some (JStr "racing") /\
    getField "name" r = Some (JStr "Jo") /\
    getField "email" r = Some (JStr "jo@x.com") /\
    getField "id" r = Some (JNum 1793591645123) /\
    (exists ts, getField "timestamp" r = Some (JStr ts) /\
                ts = Clock.toISOString 1793591645123 /\ Clock.isISO8601 ts = true).
Proof.
  apply (C8_lead_scenario (calm 1793591645123) world0).
  - vm_compute. reflexivity.
  - vm_compute. set_solver.
  - reflexivity.
  - reflexivity.
Defined.



(** C5, amended. When the lock is not obtained within the retries or the
    write throws, the append replies the server error and leaves no lock
    behind; the state is unchanged when the lock was not obtained or the
    write failed before it touched the file, and otherwise the file is
    either as it was or truncated to text that is not JSON. *)
Theorem C5_failed_append e file r w :
  attemptLock lockRetries (lockBusy e) = false \/ writeResult e <> WriteOk ->
  exists w',
    save e file r w = (w', Return ServerError) /\
    held w' = held w /\
    (attemptLock lockRetries (lockBusy e) = false \/ writeResult e = FailsAtOpen ->
     w' = w) /\
    (stored file w' = stored file w \/ stored file w' = Some Malformed).
Proof.
  intros H. rewrite save_unfold.
  destruct (snd (readData file w)) as [[items| | |]|];
    try (exists w; repeat split; auto; fail).
  destruct (writeData_cases e file (DArray (items ++ [r])) w)
    as [[err ->]|(_ & _ & Hlock & ->)].
  - exists w. repeat split; auto.
  - destruct H as [H|H]; [congruence|].
    destruct (writeResult e) eqn:Hw; [congruence| |].
    + exists w. repeat split; auto.
    + eexists. split; [reflexivity|]. split; [reflexivity|].
      split; [intros [?|?]; congruence|].
      right. apply stored_putContent.
Qed.

(** C5 when the lock is taken during all four attempts. *)
Lemma C5_failed_append_witness :
  exists w',
    save lockedOut DATA_FILES.leads (lead lockedOut jo) world0
      = (w', Return ServerError) /\
    held w' = held world0 /\
    (attemptLock lockRetries (lockBusy lockedOut) = false \/
     writeResult lockedOut = FailsAtOpen -> w' = world0) /\
    (stored DATA_FILES.leads w' = stored DATA_FILES.leads world0 \/
     stored DATA_FILES.leads w' = Some Malformed).
Proof.
  apply (C5_failed_append lockedOut DATA_FILES.leads (lead lockedOut jo) world0).
  left. reflexivity.
Defined.

(** C5 as stated fails: a write that throws after the file was truncated
    leaves [leads.json] changed, and the record stored before is gone. *)
Lemma C5_counterexample :
  writeResult tornWrite <> WriteOk /\
  snd (post_leads tornWrite jo oneLead) = Return ServerError /\
  stored DATA_FILES.leads oneLead
    = Some (Json (DArray [lead (calm 1793591645123) jo])) /\
  stored DATA_FILES.leads (exec (post_leads tornWrite jo) oneLead) = Some Malformed /\
  stored DATA_FILES.leads (exec (post_leads tornWrite jo) oneLead)
    <> stored DATA_FILES.leads oneLead.
Proof.
  split; [discriminate|].
  split; [vm_compute; reflexivity|].
  split; [vm_compute; reflexivity|].
  assert (H : stored DATA_FILES.leads (exec (post_leads tornWrite jo) oneLead)
              = Some Malformed) by (vm_compute; reflexivity).
  split; [exact H|]. rewrite H. vm_compute. discriminate.
Qed.

Section Ids.

Variable c : collection.



End Ids.




(** ** Page views and events *)

Lemma trackAll_cons v vs w :
  trackAll (v :: vs) w =
    trackAll vs (exec (trackPageView (pv_env v) (pv_page v) (pv_referer v)) w).
Proof. reflexivity. Qed.

Lemma trackPageView_noObject e page referer w :
  noObject w -> noObject (exec (trackPageView e page referer) w).
Proof.
  intros Hno a. unfold exec, trackPageView, tryCatch, bind.
  destruct (readData_returns DATA_FILES.analytics w) as [doc Hdoc]. rewrite Hdoc.
  destruct doc as [items|a0| |j]; try apply Hno.
  - destruct (writeData e _ (DArray items) w) as [w' r] eqn:Hw.
    assert (Hst := writeData_stored e DATA_FILES.analytics (DArray items) w DATA_FILES.analytics).
    rewrite Hw in Hst. cbn [fst] in Hst.
    assert (stored DATA_FILES.analytics w' <> Some (Json (DObject a))) as Hgoal.
    { destruct Hst as [->|[_ [->| ->]]]; [apply Hno|discriminate|discriminate]. }
    destruct r; exact Hgoal.
  - exfalso. apply (Hno a0), readData_object. now rewrite Hdoc.
Qed.

Lemma trackAll_noObject vs : forall w, noObject w -> noObject (trackAll vs w).
Proof.
  induction vs as [|v vs IH]; intros w Hno; [exact Hno|].
  rewrite trackAll_cons. apply IH, trackPageView_noObject, Hno.
Qed.

(** C2. After a start on a data directory without [analytics.json], no run
    of page views gives the persisted analytics document a referrer list:
    the file was initialised as an array, and the properties set on an array
    are not serialised. *)
Theorem C2_referrers_not_persisted_after_first_start vs w :
  disk w !! DATA_FILES.analytics = None ->
  persistedReferrers (trackAll vs (initDataFiles w)) = None.
Proof.
  intros Habsent.
  assert (Hno : noObject (trackAll vs (initDataFiles w))).
  { apply trackAll_noObject. intros a.
    unfold stored. rewrite (initDataFiles_absent w DATA_FILES.analytics);
      [discriminate| |exact Habsent].
    unfold DATA_FILES.values. set_solver. }
  unfold persistedReferrers.
  destruct (stored DATA_FILES.analytics _) as [[|[items|a| |j]]|] eqn:Hs; try reflexivity.
  exfalso. exact (Hno a Hs).
Qed.

(** C2 for 150 page views with distinct external referrers after a first
    start. *)
Lemma C2_referrers_not_persisted_after_first_start_witness :
  List.length oneFiftyViews = 150 /\
  forallb (fun v => external (pv_referer v)) oneFiftyViews = true /\
  NoDup (pv_referer <$> oneFiftyViews) /\
  persistedReferrers (trackAll oneFiftyViews (initDataFiles (mkWorld ∅ ∅))) = None.
Proof.
  split; [reflexivity|]. split; [vm_compute; reflexivity|].
  split; [apply (bool_decide_unpack (NoDup (pv_referer <$> oneFiftyViews))); vm_compute; exact I|].
  apply C2_referrers_not_persisted_after_first_start. reflexivity.
Defined.

Lemma trackPageView_object e page referer w a :
  disk w !! DATA_FILES.analytics = Some (mkNode true (Json (DObject a))) ->
  DATA_FILES.analytics ∉ held w ->
  quiet e ->
  exec (trackPageView e page referer) w =
    putContent DATA_FILES.analytics
      (Json (DObject (noteReferrer e page referer
                        (countView (Clock.getDateKey (now e 0)) page a)))) w.
Proof.
  intros Hdoc Hfree [Hlock Hw]. unfold exec, trackPageView, tryCatch, bind.
  rewrite (readData_stored _ _ _ Hdoc).
  rewrite writeData_acquired by eauto. rewrite Hw. reflexivity.
Qed.

Lemma trackAll_object vs : forall w a,
  disk w !! DATA_FILES.analytics = Some (mkNode true (Json (DObject a))) ->
  DATA_FILES.analytics ∉ held w ->
  Forall (fun v => quiet (pv_env v)) vs ->
  disk (trackAll vs w) !! DATA_FILES.analytics =
    Some (mkNode true (Json (DObject (foldl viewed a vs)))).
Proof.
  induction vs as [|v vs IH]; intros w a Hdoc Hfree Hq; [exact Hdoc|].
  apply Forall_cons in Hq as [Hv Hq].
  rewrite trackAll_cons, (trackPageView_object _ _ _ w a) by assumption.
  cbn [foldl]. apply IH; [|exact Hfree|exact Hq].
  rewrite (disk_putContent _ _ _ _ Hdoc). reflexivity.
Qed.

Lemma take_cons_take {A} (x : A) (l : list A) n :
  take n (x :: take n l) = take n (x :: l).
Proof.
  destruct n as [|n]; [reflexivity|].
  cbn [take]. f_equal. rewrite take_take. f_equal. lia.
Qed.

Lemma referrers_viewed vs : forall a,
  vs <> [] ->
  referrers (foldl viewed a vs) =
    Some match entries vs with
         | [] => default [] (referrers a)
         | _ => take 100 (rev (entries vs) ++ default [] (referrers a))
         end.
Proof.
  induction vs as [|v vs IH] using rev_ind; intros a Hne; [congruence|].
  rewrite foldl_app. cbn [foldl]. unfold viewed at 1, noteReferrer. cbn [referrers countView].
  unfold entries. rewrite filter_app, fmap_app. fold (entries vs).
  destruct (decide (vs = [])) as [->|Hvs].
  - cbn [foldl entries filter fmap list_fmap app]. 
    rewrite filter_cons, filter_nil.
    destruct (external (pv_referer v)) eqn:Hx.
    + rewrite decide_True by reflexivity. reflexivity.
    + rewrite decide_False by discriminate. reflexivity.
  - rewrite (IH a Hvs). cbn [default].
    rewrite filter_cons, filter_nil.
    destruct (external (pv_referer v)) eqn:Hx.
    + rewrite decide_True by reflexivity. cbn [fmap list_fmap].
      f_equal. destruct (entries vs) as [|x es] eqn:Hes.
      * reflexivity.
      * unfold id. rewrite take_cons_take.
        change ((x :: es) ++ [?e]) with (x :: (es ++ [e])).
        cbv iota. change (x :: (es ++ [?e])) with ((x :: es) ++ [e]).
        rewrite rev_app_distr. reflexivity.
    + rewrite decide_False by discriminate. cbn [fmap list_fmap]. rewrite app_nil_r.
      reflexivity.
Qed.

(** When [analytics.json] holds an object and nothing goes wrong, a run with
    at least 100 external referrers leaves exactly the 100 most recent
    entries, the most recent first. *)
Theorem referrers_capped_on_object vs w a :
  disk w !! DATA_FILES.analytics = Some (mkNode true (Json (DObject a))) ->
  DATA_FILES.analytics ∉ held w ->
  Forall (fun v => quiet (pv_env v)) vs ->
  100 <= List.length (entries vs) ->
  persistedReferrers (trackAll vs w) = Some (take 100 (rev (entries vs))) /\
  List.length (take 100 (rev (entries vs))) = 100.
Proof.
  intros Hdoc Hfree Hq Hlen.
  assert (Hne : vs <> []) by (intros ->; cbn in Hlen; lia).
  split.
  - unfold persistedReferrers, stored. rewrite (trackAll_object vs w a) by assumption.
    cbn [fmap option_fmap option_map data]. rewrite referrers_viewed by assumption.
    destruct (entries vs) as [|x es] eqn:Hes; [cbn in Hlen; lia|].
    rewrite take_app_le by (rewrite length_rev; exact Hlen). reflexivity.
  - rewrite length_take, length_rev. lia.
Qed.

Lemma oneFiftyViews_quiet : Forall (fun v => quiet (pv_env v)) oneFiftyViews.
Proof.
  unfold oneFiftyViews. apply Forall_fmap, Forall_forall.
  intros k _. split; reflexivity.
Qed.

Example referrers_capped_example :
  persistedReferrers (trackAll oneFiftyViews withOldEvent)
    = Some (take 100 (rev (entries oneFiftyViews))) /\
  List.length (take 100 (rev (entries oneFiftyViews))) = 100 /\
  ref_url <$> head (take 100 (rev (entries oneFiftyViews)))
    = Some "https://ref.example/149".
Proof.
  destruct (referrers_capped_on_object oneFiftyViews withOldEvent oldAnalytics)
    as [Hrefs Hlen].
  - vm_compute. reflexivity.
  - vm_compute. set_solver.
  - exact oneFiftyViews_quiet.
  - vm_compute. lia.
  - split; [exact Hrefs|]. split; [exact Hlen|]. vm_compute. reflexivity.
Qed.

Lemma events_viewed a v : events (viewed a v) = events a.
Proof. reflexivity. Qed.


Lemma post_event_object e b w a :
  disk w !! DATA_FILES.analytics = Some (mkNode true (Json (DObject a))) ->
  DATA_FILES.analytics ∉ held w ->
  quiet e ->
  noEvent (req_event b) = false ->
  post_event e b w =
    (putContent DATA_FILES.analytics (Json (DObject (recordEvent e b a))) w,
     Return Success).
Proof.
  intros Hdoc Hfree [Hlock Hw] Hev. unfold post_event. rewrite Hev.
  unfold tryCatch, bind. rewrite (readData_stored _ _ _ Hdoc).
  rewrite writeData_acquired by eauto. rewrite Hw. reflexivity.
Qed.




(** The zone matters: in New York, on the evening after the clocks went
    back, the cutoff falls on 25 October 2026 when the clock shows
    2 November in UTC, and the events of 25 October, eight days earlier,
    stay. *)
Example cutoff_after_clocks_went_back :
  Clock.getDateKey 1793579400000 = "2026-11-02" /\
  Clock.cutoffKey newYork 1793579400000 = "2026-10-25" /\
  Clock.dateString (Clock.dateOfDay (Clock.dayNumber 1793579400000 - 8)) = "2026-10-25" /\
  exists evs,
    persistedEvents (exec (post_event (inNewYork 1793579400000) click) eightDaysOld)
      = Some evs /\
    evs !! "2026-10-25" = Some [oldEvent].
Proof.
  split; [vm_compute; reflexivity|]. split; [vm_compute; reflexivity|].
  split; [vm_compute; reflexivity|].
  eexists. split; vm_compute; reflexivity.
Qed.

(** ** Requests in flight *)

Module FlightFacts.
Import Flight.

(** The requests after request [i] has moved to phase [p]. *)
Lemma lookup_set i j p w s q0 :
  requests s !! i = Some q0 ->
  requests (set i p w s) !! j = if decide (i = j) then Some p else requests s !! j.
Proof.
  intros Hi. unfold set. cbn [requests]. case_decide as Hij.
  - subst j. apply list_lookup_insert_eq. eapply lookup_lt_Some, Hi.
  - now apply list_lookup_insert_ne.
Qed.

Lemma exclusive_outside i p w s q0 :
  requests s !! i = Some q0 ->
  inside p = None ->
  held w ⊆ held (shared s) ->
  (forall j q f, j <> i -> requests s !! j = Some q -> inside q = Some f -> f ∈ held w) ->
  exclusive s -> exclusive (set i p w s).
Proof.
  intros Hi Hp Hsub Hkeep [Ha Hb]. split.
  - intros j q f. rewrite (lookup_set _ _ _ _ _ _ Hi). case_decide as Hij.
    + intros [= <-]. congruence.
    + intros Hq Hin. cbn [shared set]. eapply Hkeep; eauto.
  - intros j k q r f. rewrite !(lookup_set _ _ _ _ _ _ Hi).
    repeat case_decide; try (intros [= <-]; congruence).
    + intros _ [= <-]. congruence.
    + apply Hb.
Qed.

(** No segment of a handler breaks the exclusion. *)
Lemma exclusive_advance i o s s' :
  exclusive s -> advance i o s = Some s' -> exclusive s'.
Proof.
  intros Hex. pose proof Hex as [Ha Hb]. unfold advance.
  destruct (requests s !! i) as [[file r|file xs n|file xs|file res|resp]|] eqn:Hi;
    try discriminate.
  - (* the first segment: read and push *)
    destruct (readData_returns file (shared s)) as [d Hd].
    unfold bind. rewrite Hd.
    assert (Hs' : forall p, inside p = None -> exclusive (set i p (shared s) s)).
    { intros p Hp. eapply exclusive_outside; eauto. }
    destruct d; cbn [push ret throw]; intros [= <-]; apply Hs'; reflexivity.
  - (* an attempt on the lock *)
    destruct (negb (existsSync file (shared s))).
    { intros [= <-]. eapply exclusive_outside; eauto. }
    unfold acquire. case_bool_decide as Hheld.
    + assert (Hs' : forall p, inside p = None -> exclusive (set i p (shared s) s)).
      { intros p Hp. eapply exclusive_outside; eauto. }
      destruct n; intros [= <-]; apply Hs'; reflexivity.
    + intros [= <-]. split.
      * intros j q f. rewrite (lookup_set _ _ _ _ _ _ Hi). cbn [shared set held].
        case_decide.
        -- intros [= <-] [= <-]. set_solver.
        -- intros Hq Hin. apply elem_of_union_r. eauto.
      * intros j k q r f. rewrite !(lookup_set _ _ _ _ _ _ Hi).
        repeat case_decide; subst; try congruence.
        -- intros [= <-] Hr [= <-] Hin. exfalso. apply Hheld. eauto.
        -- intros Hq [= <-] Hin [= <-]. exfalso. apply Hheld. eauto.
        -- apply Hb.
  - (* the write *)
    destruct (writeFileSync o file xs (shared s)) as [w res] eqn:Hw.
    assert (Hheld : held w = held (shared s)).
    { unfold writeFileSync in Hw. destruct o; injection Hw as <- _; reflexivity. }
    intros [= <-]. split.
    + intros j q f. rewrite (lookup_set _ _ _ _ _ _ Hi). cbn [shared set]. rewrite Hheld.
      case_decide.
      * intros [= <-] [= <-]. eapply Ha; [exact Hi|reflexivity].
      * eauto.
    + intros j k q r f. rewrite !(lookup_set _ _ _ _ _ _ Hi).
      repeat case_decide; subst; try congruence.
      * intros [= <-] Hr [= <-] Hin. eapply (Hb _ _ _ _ _ Hi Hr); [reflexivity|exact Hin].
      * intros Hq [= <-] Hin [= <-]. eapply (Hb _ _ _ _ _ Hq Hi); [exact Hin|reflexivity].
      * apply Hb.
  - (* the release *)
    cbn [release]. intros [= <-].
    eapply exclusive_outside; eauto.
    + cbn [held]. set_solver.
    + intros j q f Hji Hq Hin. cbn [held].
      apply elem_of_difference. split; [eauto|].
      intros ->%elem_of_singleton. apply Hji.
      eapply (Hb _ _ _ _ _ Hq Hi); [exact Hin|reflexivity].
Qed.

(** The first segment of a handler, which reads the array and pushes the
    record, runs whoever holds the lock, takes no lock, and leaves the
    request outside the locked region. *)
Lemma read_outside_lock i o s s' file r :
  requests s !! i = Some (Arrived file r) ->
  advance i o s = Some s' ->
  shared s' = shared s /\
  exists p, requests s' !! i = Some p /\ inside p = None.
Proof.
  intros Hi. unfold advance. rewrite Hi.
  destruct (readData_returns file (shared s)) as [d Hd].
  unfold bind. rewrite Hd.
  destruct d; cbn [push ret throw]; intros [= <-]; (split; [reflexivity|]);
    eexists; (split; [erewrite lookup_set by exact Hi; now rewrite decide_True|]);
    reflexivity.
Qed.

Lemma exclusive_step s s' : step s s' -> exclusive s -> exclusive s'.
Proof. intros (i & o & Hadv) Hex. eapply exclusive_advance; eauto. Qed.

(** Whatever the requests do from a state in which the locked regions are
    exclusive, they stay so: the write of a request runs with the lock of
    its file held, and by that request alone. *)
Lemma exclusive_reachable s s' : rtc step s s' -> exclusive s -> exclusive s'.
Proof.
  induction 1 as [s|s s1 s2 Hstep _ IH]; intros Hex; [exact Hex|].
  apply IH. eapply exclusive_step; eauto.
Qed.

(** Requests that have all just arrived, with no lock held. *)
Lemma exclusive_arrivals w ps :
  Forall (fun p => inside p = None) ps -> exclusive (mkState w ps).
Proof.
  intros Hall.
  assert (Hout : forall i p f, ps !! i = Some p -> inside p = Some f -> False).
  { intros i p f Hi Hin. eapply Forall_lookup_1 in Hall; [|exact Hi].
    cbn in Hall. congruence. }
  split; cbn [requests shared].
  - intros i p f Hi Hin. exfalso. eauto.
  - intros i j p q f Hi _ Hin _. exfalso. eauto.
Qed.

(** Along every schedule the locked regions stay exclusive. *)
Lemma exclusive_run schedule : forall s s',
  exclusive s -> run schedule s = Some s' -> exclusive s'.
Proof.
  induction schedule as [|[i o] rest IH]; intros s s' Hex; cbn [run].
  - now intros [= <-].
  - destruct (advance i o s) as [s1|] eqn:Hadv; [|discriminate].
    apply IH. eapply exclusive_advance; eauto.
Qed.

(** A request served alone, with nobody else after the lock, does what
    the [try] block of its handler does. *)
Lemma solo_agrees_with_save e file r w :
  lockBusy e = 0 ->
  exists w' resp,
    save e file r w = (w', Return resp) /\
    solo 6 (writeResult e) (mkState w [Arrived file r]) = mkState w' [Replied resp].
Proof.
  intros Hbusy. rewrite save_unfold.
  destruct (readData_returns file w) as [d Hd].
  cbn [solo]. unfold advance at 1. cbn [requests lookup list_lookup shared].
  unfold bind. rewrite Hd. cbn [snd].
  destruct d as [items| | |]; cbn [push ret throw];
    try (exists w, ServerError; split; reflexivity).
  unfold writeData, lockfile_lock. rewrite Hbusy. cbn [attemptLock].
  unfold advance at 1. cbn [set requests shared lookup list_lookup list_insert insert].
  destruct (negb (existsSync file w)) eqn:Hex.
  { exists w, ServerError. split; reflexivity. }
  unfold acquire. case_bool_decide as Hheld.
  - (* the lock is taken throughout *)
    unfold lockRetries. cbv iota.
    do 3 (unfold advance at 1;
          cbn [set requests shared lookup list_lookup list_insert insert];
          rewrite Hex; unfold acquire; rewrite (bool_decide_eq_true_2 _ Hheld);
          cbv iota).
    exists w, ServerError. split; reflexivity.
  - unfold advance at 1. cbn [set requests shared lookup list_lookup list_insert insert].
    unfold tryFinally.
    destruct (writeFileSync (writeResult e) file (DArray (items ++ [r]))
                {| disk := disk w; held := {[file]} ∪ held w |}) as [w1 res] eqn:Hw.
    unfold advance at 1. cbn [set requests shared lookup list_lookup list_insert insert].
    cbn [release]. destruct res as [[]|err]; eexists _, _; split; reflexivity.
Qed.

End FlightFacts.

(** C1. Two submissions in flight: both reply success, yet [leads.json]
    holds the record of the second only. Each read the array before it
    asked for the lock, so the write of the second replaced the record of
    the first. Served one after the other, the same two requests leave
    both records. *)
Theorem C1_lost_update :
  exists s,
    Flight.run race twoSubmissions = Some s /\
    Flight.requests s = [Flight.Replied Success; Flight.Replied Success] /\
    held (Flight.shared s) = ∅ /\
    stored DATA_FILES.leads (Flight.shared s)
      = Some (Json (DArray [lead (calm 1793591645125) shout])) /\
    stored DATA_FILES.leads
      (submitAll Leads [(calm 1793591645123, jo); (calm 1793591645125, shout)] world0)
      = Some (Json (DArray [lead (calm 1793591645123) jo;
                            lead (calm 1793591645125) shout])).
Proof.
  eexists. split; [vm_compute; reflexivity|].
  repeat split; vm_compute; reflexivity.
Qed.

(** * Properties of the further parts *)

(** ** [sanitize] *)

Lemma length_slice0 n s : String.length (Str.slice0 n s) <= n.
Proof.
  revert s. induction n as [|n IH]; intros [|c s]; cbn [Str.slice0 String.length]; try lia.
  specialize (IH s). lia.
Qed.

(** X1. Whatever the input, the text that [sanitize] returns has at most
    [maxLength] characters. *)
Theorem sanitize_length str maxLength :
  String.length (sanitize str maxLength) <= maxLength.
Proof.
  unfold sanitize. destruct str as [[|c s]|]; cbn [String.length]; try lia.
  apply length_slice0.
Qed.

Lemma all_slice0 p n s : Str.all p s = true -> Str.all p (Str.slice0 n s) = true.
Proof.
  revert s. induction n as [|n IH]; intros [|c s]; cbn [Str.slice0 Str.all]; auto.
  intros [-> H]%andb_true_iff. now rewrite IH.
Qed.

Lemma all_trimStart p s : Str.all p s = true -> Str.all p (Str.trimStart s) = true.
Proof.
  induction s as [|c s IH]; cbn [Str.trimStart Str.all]; auto.
  intros H. destruct (Str.isWhiteSpace c); [|exact H].
  apply andb_true_iff in H as [_ H]. auto.
Qed.

Lemma all_trimEnd p s : Str.all p s = true -> Str.all p (Str.trimEnd s) = true.
Proof.
  induction s as [|c s IH]; cbn [Str.trimEnd Str.all]; auto.
  intros [Hc H]%andb_true_iff. specialize (IH H).
  destruct (Str.trimEnd s) as [|c' s'].
  - destruct (Str.isWhiteSpace c); cbn [Str.all]; [reflexivity|now rewrite Hc].
  - cbn [Str.all] in *. now rewrite Hc, IH.
Qed.

Lemma entity_no_markup c : Str.all (fun x => negb (markup x)) (entity c) = true.
Proof.
  unfold entity.
  destruct (Ascii.eqb c "<") eqn:H1; [reflexivity|].
  destruct (Ascii.eqb c ">") eqn:H2; [reflexivity|].
  destruct (Ascii.eqb c dquote) eqn:H3; [reflexivity|].
  destruct (Ascii.eqb c "'") eqn:H4; [reflexivity|].
  destruct (Ascii.eqb c "&") eqn:H5; [reflexivity|].
  cbn [Str.all]. unfold markup. now rewrite H1, H2, H3, H4.
Qed.

Lemma escapeSpecial_no_markup s :
  Str.all (fun x => negb (markup x)) (escapeSpecial s) = true.
Proof.
  induction s as [|c s IH]; [reflexivity|].
  cbn [escapeSpecial]. now rewrite all_app, entity_no_markup, IH.
Qed.

(** X2. The text that [sanitize] returns holds no angle bracket and no quote,
    single or double: what is left of markup after the tags are stripped is
    escaped. *)
Theorem sanitize_no_markup str maxLength :
  Str.all (fun c => negb (markup c)) (sanitize str maxLength) = true.
Proof.
  unfold sanitize. destruct str as [[|c s]|]; try reflexivity.
  apply all_slice0, all_trimEnd, all_trimStart, escapeSpecial_no_markup.
Qed.

Lemma stripTags_plain s :
  Str.all (fun c => negb (special c)) s = true -> stripTags s = s.
Proof.
  induction s as [|c s IH]; [reflexivity|]. cbn [Str.all stripTags].
  intros [Hc H]%andb_true_iff.
  destruct (Ascii.eqb c "<") eqn:Hlt.
  - unfold special, markup in Hc. rewrite Hlt in Hc. discriminate.
  - now rewrite IH.
Qed.

Lemma escapeSpecial_plain s :
  Str.all (fun c => negb (special c)) s = true -> escapeSpecial s = s.
Proof.
  induction s as [|c s IH]; [reflexivity|]. cbn [Str.all escapeSpecial].
  intros [Hc H]%andb_true_iff. rewrite (IH H).
  unfold special, markup in Hc. unfold entity.
  destruct (Ascii.eqb c "<"), (Ascii.eqb c ">"), (Ascii.eqb c dquote),
    (Ascii.eqb c "'"), (Ascii.eqb c "&"); try discriminate. reflexivity.
Qed.

Lemma slice0_short n s : String.length s <= n -> Str.slice0 n s = s.
Proof.
  revert s. induction n as [|n IH]; intros [|c s]; cbn [Str.slice0 String.length];
    try reflexivity; try lia.
  intros H. rewrite IH by lia. reflexivity.
Qed.

(** X3. [sanitize] returns a text as it is when the text is not empty, holds
    none of the five characters that are escaped, has no white space at
    either end and is within the length. *)
Theorem sanitize_plain_text s maxLength :
  s <> EmptyString ->
  Str.all (fun c => negb (special c)) s = true ->
  Str.trim s = s ->
  String.length s <= maxLength ->
  sanitize (Some s) maxLength = s.
Proof.
  intros Hne Hplain Htrim Hlen. unfold sanitize.
  destruct s as [|c s]; [congruence|].
  rewrite stripTags_plain, escapeSpecial_plain by assumption.
  rewrite Htrim. now apply slice0_short.
Qed.

Lemma sanitize_plain_text_witness : sanitize (Some "Jo Doe") 100 = "Jo Doe".
Proof.
  apply sanitize_plain_text; [discriminate|reflexivity|reflexivity|cbn; lia].
Defined.

(** ** Validation, then sanitising *)

Lemma toLowerCase_app s t :
  Str.toLowerCase (s ++ t)%string = (Str.toLowerCase s ++ Str.toLowerCase t)%string.
Proof.
  induction s as [|c s IH]; [reflexivity|].
  rewrite append_cons. cbn [Str.toLowerCase]. now rewrite IH, append_cons.
Qed.

Lemma emailChar_toLowerChar c : emailChar (Str.toLowerChar c) = emailChar c.
Proof. destruct c as [[] [] [] [] [] [] [] []]; reflexivity. Qed.

Lemma all_emailChar_toLowerCase s :
  Str.all emailChar (Str.toLowerCase s) = Str.all emailChar s.
Proof.
  induction s as [|c s IH]; [reflexivity|].
  cbn [Str.toLowerCase Str.all]. now rewrite emailChar_toLowerChar, IH.
Qed.

Lemma toLowerCase_nonempty s : s <> EmptyString -> Str.toLowerCase s <> EmptyString.
Proof. destruct s; [congruence|discriminate]. Qed.

(** Lower case keeps an address valid. *)
Lemma isValidEmail_toLowerCase s :
  isValidEmail s = true -> isValidEmail (Str.toLowerCase s) = true.
Proof.
  rewrite !isValidEmail_spec.
  intros (a & b & c & -> & Ha & Hb & Hc & Halla & Hallb & Hallc).
  exists (Str.toLowerCase a), (Str.toLowerCase b), (Str.toLowerCase c).
  rewrite !toLowerCase_app, !all_emailChar_toLowerCase.
  repeat split; auto using toLowerCase_nonempty.
Qed.

Lemma trimStart_id s :
  Str.all (fun c => negb (Str.isWhiteSpace c)) s = true -> Str.trimStart s = s.
Proof.
  destruct s as [|c s]; [reflexivity|]. cbn [Str.all Str.trimStart].
  intros [Hc _]%andb_true_iff. apply negb_true_iff in Hc. now rewrite Hc.
Qed.

Lemma trimEnd_id s :
  Str.all (fun c => negb (Str.isWhiteSpace c)) s = true -> Str.trimEnd s = s.
Proof.
  induction s as [|c s IH]; [reflexivity|]. cbn [Str.all Str.trimEnd].
  intros [Hc H]%andb_true_iff. apply negb_true_iff in Hc. rewrite (IH H), Hc.
  destruct s; reflexivity.
Qed.

Lemma trim_id s :
  Str.all (fun c => negb (Str.isWhiteSpace c)) s = true -> Str.trim s = s.
Proof. intros H. unfold Str.trim. now rewrite trimStart_id, trimEnd_id. Qed.

Lemma all_impl (p q : ascii -> bool) s :
  (forall c, p c = true -> q c = true) -> Str.all p s = true -> Str.all q s = true.
Proof.
  intros Hpq. induction s as [|c s IH]; [reflexivity|]. cbn [Str.all].
  intros [Hc H]%andb_true_iff. now rewrite (Hpq c Hc), IH.
Qed.

(** A valid address has no white space. *)
Lemma isValidEmail_no_space s :
  isValidEmail s = true ->
  Str.all (fun c => negb (Str.isWhiteSpace c)) s = true.
Proof.
  intros (a & b & c & -> & _ & _ & _ & Ha & Hb & Hc)%isValidEmail_spec.
  assert (Himp : forall x, emailChar x = true -> negb (Str.isWhiteSpace x) = true)
    by (intros x [H _]%andb_true_iff; exact H).
  rewrite !all_app. rewrite (all_impl _ _ a Himp Ha), (all_impl _ _ b Himp Hb),
    (all_impl _ _ c Himp Hc). reflexivity.
Qed.

(** X4. [isValidEmail] accepts exactly the texts made of a local part, an at
    sign and a domain, where the local part is not empty, neither part
    holds white space or an at sign, and the domain has a dot with text on
    both sides. *)
Theorem isValidEmail_shape s :
  isValidEmail s = true <->
  exists localPart domain,
    s = (localPart ++ "@" ++ domain)%string /\
    localPart <> EmptyString /\
    Str.all emailChar localPart = true /\
    Str.all emailChar domain = true /\
    exists name tld,
      domain = (name ++ "." ++ tld)%string /\
      name <> EmptyString /\ tld <> EmptyString.
Proof.
  rewrite isValidEmail_spec. unfold emailRegex. split.
  - intros (a & b & c & -> & Ha & Hb & Hc & Halla & Hallb & Hallc).
    exists a, (b ++ "." ++ c)%string. repeat split; auto.
    + rewrite !all_app, Hallb, Hallc. reflexivity.
    + exists b, c. auto.
  - intros (a & d & -> & Ha & Halla & Halld & b & c & -> & Hb & Hc).
    rewrite !all_app in Halld. apply andb_true_iff in Halld as [Hallb Hallc].
    apply andb_true_iff in Hallc as [_ Hallc].
    exists a, b, c. repeat split; auto.
Qed.

(** X5. For a request whose email passes [isValidEmail], holds none of the
    escaped characters and has at most 254 characters, the record stores
    that email in lower case, and the stored email passes [isValidEmail]
    again. *)
Theorem stored_email_valid c e b addr :
  req_email b = Some addr ->
  isValidEmail addr = true ->
  Str.all (fun ch => negb (special ch)) addr = true ->
  String.length addr <= 254 ->
  getField "email" (recordOf c e b) = Some (JStr (Str.toLowerCase addr)) /\
  isValidEmail (Str.toLowerCase addr) = true.
Proof.
  intros Hreq Hvalid Hplain Hlen. rewrite recordOf_email, Hreq.
  assert (Hclean : sanitize (Some addr) 254 = addr).
  { unfold sanitize. destruct addr as [|ch addr]; [discriminate|].
    rewrite stripTags_plain, escapeSpecial_plain by assumption.
    rewrite trim_id by (apply isValidEmail_no_space, Hvalid).
    now apply slice0_short. }
  rewrite Hclean. split; [reflexivity|].
  now apply isValidEmail_toLowerCase.
Qed.

Lemma stored_email_valid_witness :
  getField "email" (recordOf Leads (calm 1793591645123) shout)
    = Some (JStr (Str.toLowerCase "Jo@X.COM")) /\
  isValidEmail (Str.toLowerCase "Jo@X.COM") = true.
Proof.
  apply (stored_email_valid Leads (calm 1793591645123) shout "Jo@X.COM");
    [reflexivity|reflexivity|reflexivity|cbn; lia].
Defined.

(** ** [anonymizeEmail] *)

Lemma split_no_sep sep s : Str.contains sep s = false -> split sep s = [s].
Proof.
  induction s as [|c s IH]; [reflexivity|]. cbn [Str.contains split].
  intros [Hc H]%orb_false_iff. now rewrite Hc, (IH H).
Qed.

Lemma split_app sep s t :
  Str.contains sep s = false ->
  split sep (s ++ String sep t)%string = s :: split sep t.
Proof.
  induction s as [|c s IH].
  - intros _. rewrite append_empty. cbn [split]. now rewrite Ascii.eqb_refl.
  - cbn [Str.contains]. intros [Hc H]%orb_false_iff.
    rewrite append_cons. cbn [split]. now rewrite Hc, (IH H).
Qed.

Lemma contains_app x s t :
  Str.contains x (s ++ t)%string = Str.contains x s || Str.contains x t.
Proof.
  induction s as [|c s IH]; [reflexivity|].
  rewrite append_cons. cbn [Str.contains]. now rewrite IH, orb_assoc.
Qed.

Lemma emailChar_no_at s : Str.all emailChar s = true -> Str.contains "@" s = false.
Proof.
  induction s as [|c s IH]; [reflexivity|]. cbn [Str.all Str.contains].
  intros [[_ Hc]%andb_true_iff H]%andb_true_iff.
  apply negb_true_iff in Hc. now rewrite Hc, IH.
Qed.

Lemma get_last s z : String.get (String.length s) (s ++ String z EmptyString) = Some z.
Proof. induction s as [|c s IH]; [reflexivity|exact IH]. Qed.

Lemma length_append s t :
  String.length (s ++ t)%string = String.length s + String.length t.
Proof.
  induction s as [|c s IH]; [reflexivity|].
  rewrite append_cons. cbn [String.length]. now rewrite IH.
Qed.

Lemma snoc_decomposition s c :
  exists mid z, String c s = (mid ++ String z EmptyString)%string /\
                String.length mid = String.length s.
Proof.
  revert c. induction s as [|d s IH]; intros c.
  - exists EmptyString, c. split; reflexivity.
  - destruct (IH d) as (mid & z & Heq & Hlen).
    exists (String c mid), z. rewrite append_cons, <- Heq. cbn [String.length].
    split; [reflexivity|now rewrite Hlen].
Qed.

(** What the mask shows of a local part: nothing when it has at most two
    characters, and else its first and its last character. *)
Lemma mask_shape localPart :
  (String.length localPart <= 2 /\ mask localPart = "***") \/
  (exists a mid z,
     localPart = String a (mid ++ String z EmptyString) /\ mid <> EmptyString /\
     mask localPart = String a ("***" ++ String z EmptyString)).
Proof.
  unfold mask. destruct (Nat.ltb_spec 2 (String.length localPart)) as [Hlt|Hle];
    [right|left; auto].
  destruct localPart as [|a [|b rest]]; [cbn in Hlt; lia|cbn in Hlt; lia|].
  destruct (snoc_decomposition rest b) as (mid & z & Heq & Hlen).
  exists a, mid, z. rewrite Heq. split; [reflexivity|]. split.
  - intros ->. cbn in Hlt, Hlen. cbn [String.length] in Hlt. lia.
  - assert (Hlast :
      String.get (String.length (String a (mid ++ String z EmptyString)) - 1)
                 (String a (mid ++ String z EmptyString)) = Some z).
    { cbn [String.length]. rewrite Nat.sub_succ, Nat.sub_0_r, length_append.
      cbn [String.length]. rewrite Nat.add_1_r. cbn [String.get]. apply get_last. }
    unfold charText. rewrite Hlast. reflexivity.
Qed.

(** X6. For an email that passes [isValidEmail], which is a local part
    without an at sign, an at sign and a domain, [anonymizeEmail] keeps the
    domain and shows of the local part no more than its first and its last
    character: a local part of one or two characters becomes three stars,
    a longer one its first character, three stars and its last character. *)
Theorem anonymizeEmail_valid addr :
  isValidEmail addr = true ->
  exists localPart domain,
    addr = (localPart ++ "@" ++ domain)%string /\
    Str.contains "@" localPart = false /\
    ((String.length localPart <= 2 /\
      anonymizeEmail (Some addr) = ("***@" ++ domain)%string) \/
     (2 < String.length localPart /\
      exists a mid z,
        localPart = String a (mid ++ String z EmptyString) /\
        anonymizeEmail (Some addr) =
          String a ("***" ++ String z ("@" ++ domain))%string)).
Proof.
  intros (a & b & c & -> & Ha & _ & _ & Halla & Hallb & Hallc)%isValidEmail_spec.
  exists a, (b ++ "." ++ c)%string. split; [reflexivity|].
  split; [now apply emailChar_no_at|].
  assert (Hanon : anonymizeEmail (Some (a ++ "@" ++ b ++ "." ++ c)%string) =
                  (mask a ++ "@" ++ b ++ "." ++ c)%string).
  { unfold anonymizeEmail.
    destruct (a ++ "@" ++ b ++ "." ++ c)%string as [|x rest] eqn:Heq.
    { destruct a; discriminate. }
    rewrite <- Heq.
    change ("@" ++ b ++ "." ++ c)%string with (String "@" (b ++ "." ++ c)).
    rewrite split_app by now apply emailChar_no_at.
    rewrite split_no_sep; [reflexivity|].
    rewrite !contains_app, (emailChar_no_at b Hallb), (emailChar_no_at c Hallc).
    reflexivity. }
  rewrite Hanon.
  destruct (mask_shape a) as [[Hlen ->]|(x & mid & z & Heq & Hmid & ->)].
  - left. split; [exact Hlen|reflexivity].
  - right. split.
    + rewrite Heq. cbn [String.length]. rewrite length_append. cbn [String.length].
      destruct mid; [congruence|]. cbn [String.length]. lia.
    + exists x, mid, z. split; [exact Heq|reflexivity].
Qed.

Lemma anonymizeEmail_valid_witness :
  exists localPart domain,
    "jo.doe@x.com" = (localPart ++ "@" ++ domain)%string /\
    Str.contains "@" localPart = false /\
    ((String.length localPart <= 2 /\
      anonymizeEmail (Some "jo.doe@x.com") = ("***@" ++ domain)%string) \/
     (2 < String.length localPart /\
      exists a mid z,
        localPart = String a (mid ++ String z EmptyString) /\
        anonymizeEmail (Some "jo.doe@x.com") =
          String a ("***" ++ String z ("@" ++ domain))%string)).
Proof. apply anonymizeEmail_valid. reflexivity. Defined.

(** ** The store *)

Lemma disk_putContent_ne file g c w :
  file <> g -> disk (putContent file c w) !! g = disk w !! g.
Proof. intros H. unfold putContent. cbn [disk]. now apply lookup_insert_ne. Qed.

Lemma writeData_disk_ne e file d w g :
  file <> g -> disk (fst (writeData e file d w)) !! g = disk w !! g.
Proof.
  intros Hne.
  destruct (writeData_cases e file d w) as [[err ->]|(_ & _ & _ & ->)];
    [reflexivity|].
  destruct (writeResult e); cbn [fst]; rewrite ?disk_putContent_ne by assumption;
    reflexivity.
Qed.

(** X7. When [writeData] returns on a file that can be read, [readData]
    returns the document just written, and the lock is released. *)
Theorem write_then_read e file d w w' n :
  disk w !! file = Some n -> readable n = true ->
  writeData e file d w = (w', Return tt) ->
  readData file w' = (w', Return d) /\ held w' = held w.
Proof.
  intros Hn Hr Hw.
  pose proof (writeData_held e file d w) as Hheld. rewrite Hw in Hheld.
  split; [|exact Hheld].
  destruct (writeData_cases e file d w) as [[err He]|(_ & _ & _ & He)];
    rewrite He in Hw; [discriminate|].
  destruct (writeResult e); try discriminate. injection Hw as <-.
  apply readData_stored. rewrite (disk_putContent _ _ _ _ Hn), Hr. reflexivity.
Qed.

Lemma write_then_read_witness :
  readData DATA_FILES.leads
    (fst (writeData (calm 0) DATA_FILES.leads (DArray [JNum 7]) world0))
  = (fst (writeData (calm 0) DATA_FILES.leads (DArray [JNum 7]) world0),
     Return (DArray [JNum 7])) /\
  held (fst (writeData (calm 0) DATA_FILES.leads (DArray [JNum 7]) world0))
  = held world0.
Proof.
  apply (write_then_read (calm 0) DATA_FILES.leads (DArray [JNum 7]) world0 _
           (mkNode true (Json (DArray [])))).
  - vm_compute. reflexivity.
  - reflexivity.
  - vm_compute. reflexivity.
Defined.

(** ** Submissions *)

Lemma handler_cases c e b w :
  (accepted c b = true /\
   handler c e b w = save e (fileOf c) (recordOf c e b) w) \/
  (accepted c b = false /\ exists m, handler c e b w = (w, Return (BadRequest m))).
Proof.
  unfold accepted.
  destruct c; cbn [handler fileOf recordOf];
    unfold post_leads, post_contact, post_investors;
    destruct (blank (req_name b)); cbn [negb andb]; eauto;
    destruct (badEmail (req_email b)); cbn [negb andb]; eauto.
  destruct (blank (req_message b)); cbn [negb andb]; eauto.
Qed.







(** A name that is a number: [name.trim] is not a function, and the
    TypeError escapes the handler. *)
Example numeric_name_throws :
  strings numericName = false /\
  route Leads (calm 1793591645123) numericName world0 = (world0, Throw TypeError).
Proof. split; reflexivity. Qed.

(** On a body of strings the handler is the one of the sections above. *)
Lemma route_ofStrings c e b w : route c e (ofStrings b) w = handler c e b w.
Proof.
  assert (Hblank : forall s w0, blankValue (JStr <$> s) w0 = (w0, Return (blank s))).
  { intros [s|] w0; reflexivity. }
  assert (Htext : forall s w0,
            exists t, textOfValue (JStr <$> s) w0 = (w0, Return t) /\
                      badEmail t = badEmail s /\
                      forall n, sanitize t n = sanitize s n).
  { intros [[|ch s]|] w0; eexists; (split; [reflexivity|]); split; reflexivity. }
  destruct c; cbn [route handler]; unfold leads_route, contact_route, investors_route,
    post_leads, post_contact, post_investors, ofStrings, bind;
    cbn [body_name body_email body_interest body_subject body_message body_company
         body_type];
    rewrite Hblank; destruct (blank (req_name b)); try reflexivity;
    destruct (Htext (req_email b) w) as (email & -> & Hbad & Hemail); rewrite Hbad;
    destruct (badEmail (req_email b)); try reflexivity.
  - destruct (Htext (req_name b) w) as (name & -> & _ & Hname).
    destruct (Htext (req_interest b) w) as (interest & -> & _ & Hinterest).
    unfold lead. cbn [req_name req_email req_interest].
    now rewrite Hname, Hemail, Hinterest.
  - rewrite Hblank. destruct (blank (req_message b)); try reflexivity.
    destruct (Htext (req_name b) w) as (name & -> & _ & Hname).
    destruct (Htext (req_subject b) w) as (subject & -> & _ & Hsubject).
    destruct (Htext (req_message b) w) as (message & -> & _ & Hmessage).
    unfold contact. cbn [req_name req_email req_subject req_message].
    now rewrite Hname, Hemail, Hsubject, Hmessage.
  - destruct (Htext (req_name b) w) as (name & -> & _ & Hname).
    destruct (Htext (req_company b) w) as (company & -> & _ & Hcompany).
    destruct (Htext (req_type b) w) as (type & -> & _ & Htype).
    destruct (Htext (req_message b) w) as (message & -> & _ & Hmessage).
    unfold investor. cbn [req_name req_email req_company req_type req_message].
    now rewrite Hname, Hemail, Hcompany, Htype, Hmessage.
Qed.

(** X9. A submission changes no file but that of its collection. *)
Theorem handler_other_files c e b w g :
  g <> fileOf c ->
  disk (exec (handler c e b) w) !! g = disk w !! g.
Proof.
  intros Hne. unfold exec.
  destruct (handler_cases c e b w) as [[_ ->]|[_ [m ->]]]; [|reflexivity].
  rewrite save_unfold.
  destruct (snd (readData (fileOf c) w)) as [[items| | |]|]; try reflexivity.
  pose proof (writeData_disk_ne e (fileOf c)
                (DArray (items ++ [recordOf c e b])) w g) as Hd.
  destruct (writeData e (fileOf c) _ w) as [w' [[]|err]]; cbn [fst] in *; auto.
Qed.

Lemma handler_other_files_witness :
  disk (exec (handler Leads (calm 1793591645123) jo) world0) !! DATA_FILES.contacts
  = disk world0 !! DATA_FILES.contacts.
Proof. apply handler_other_files. discriminate. Defined.

Lemma handler_smooth c r w items :
  smooth c r ->
  disk w !! fileOf c = Some (mkNode true (Json (DArray items))) ->
  fileOf c ∉ held w ->
  handler c (fst r) (snd r) w =
    (putContent (fileOf c) (Json (DArray (items ++ [built c r]))) w, Return Success).
Proof.
  intros [[Hlock Hw] Hacc] Hdisk Hfree.
  destruct (handler_cases c (fst r) (snd r) w) as [[_ ->]|[Hno _]]; [|congruence].
  eapply save_success; eauto. now rewrite (readData_stored _ _ _ Hdisk).
Qed.

(** X10. Requests that pass the validation, served one after the other while
    nothing goes wrong, leave in the file the records it had followed by
    one record for each request, in the order of arrival. *)
Theorem appends_in_order c rs : forall w items,
  Forall (smooth c) rs ->
  disk w !! fileOf c = Some (mkNode true (Json (DArray items))) ->
  fileOf c ∉ held w ->
  disk (submitAll c rs w) !! fileOf c =
    Some (mkNode true (Json (DArray (items ++ (built c <$> rs))))).
Proof.
  induction rs as [|r rs IH]; intros w items Hall Hdisk Hfree.
  - cbn. now rewrite app_nil_r.
  - apply Forall_cons in Hall as [Hr Hall].
    cbn [submitAll foldl]. change (foldl _ ?w0 rs) with (submitAll c rs w0).
    unfold exec. rewrite (handler_smooth c r w items) by assumption. cbn [fst].
    rewrite (IH _ (items ++ [built c r])); [|exact Hall| |exact Hfree].
    + rewrite fmap_cons, <- app_assoc. reflexivity.
    + rewrite (disk_putContent _ _ _ _ Hdisk). reflexivity.
Qed.

Lemma appends_in_order_witness :
  disk (submitAll Leads [(calm 1793591645123, jo); (calm 1793591645123, shout)] world0)
    !! fileOf Leads =
  Some (mkNode true (Json (DArray ([] ++
    (built Leads <$> [(calm 1793591645123, jo); (calm 1793591645123, shout)]))))).
Proof.
  apply appends_in_order.
  - repeat constructor.
  - vm_compute. reflexivity.
  - vm_compute. set_solver.
Defined.

(** ** The admin routes *)

Lemma adminAuth_Next cfg hdr :
  adminAuth cfg hdr = Next <->
  (isSet (ADMIN_KEY cfg) = false /\ IS_PRODUCTION cfg = false) \/
  (isSet (ADMIN_KEY cfg) = true /\ hdr = ADMIN_KEY cfg).
Proof.
  unfold adminAuth.
  destruct (IS_PRODUCTION cfg), (isSet (ADMIN_KEY cfg)); cbn [andb negb];
    try case_bool_decide; cbn [negb]; split; intros Hyp; try discriminate;
    try tauto; try (destruct Hyp as [[? ?]|[? ?]]; congruence).
Qed.

Lemma behind_Served {A} cfg hdr (m : M A) w w' a :
  behind cfg hdr m w = (w', Return (Served a)) ->
  adminAuth cfg hdr = Next /\ m w = (w', Return a).
Proof.
  unfold behind. destruct (adminAuth cfg hdr); [|discriminate].
  unfold bind, ret. destruct (m w) as [w1 [x|err]]; [|discriminate].
  intros [= -> ->]. auto.
Qed.

Lemma behind_Next {A} cfg hdr (m : M A) w w' a :
  adminAuth cfg hdr = Next -> m w = (w', Return a) ->
  behind cfg hdr m w = (w', Return (Served a)).
Proof. unfold behind, bind, ret. now intros -> ->. Qed.

(** X11. In production an admin route is served only when [ADMIN_KEY] is set
    to a text that is not empty and the request carries that text in its
    header. *)
Theorem admin_route_needs_key {A} cfg hdr (m : M A) w w' a :
  IS_PRODUCTION cfg = true ->
  behind cfg hdr m w = (w', Return (Served a)) ->
  exists key, key <> EmptyString /\ ADMIN_KEY cfg = Some key /\ hdr = Some key.
Proof.
  intros Hprod [Hnext _]%behind_Served.
  apply adminAuth_Next in Hnext as [[_ ?]|[Hset ->]]; [congruence|].
  destruct (ADMIN_KEY cfg) as [[|c k]|]; try discriminate.
  exists (String c k). repeat split. discriminate.
Qed.

Lemma admin_route_needs_key_witness :
  exists key, key <> EmptyString /\
    ADMIN_KEY (mkConfig true (Some "s3cret")) = Some key /\ Some "s3cret" = Some key.
Proof.
  apply (admin_route_needs_key (mkConfig true (Some "s3cret")) (Some "s3cret")
           (list_collection DATA_FILES.leads) world0 world0
           (mkListing (Some 0) (DArray []))).
  - reflexivity.
  - vm_compute. reflexivity.
Defined.

Lemma list_collection_array file w items :
  disk w !! file = Some (mkNode true (Json (DArray items))) ->
  list_collection file w = (w, Return (mkListing (Some (List.length items)) (DArray items))).
Proof.
  intros H. unfold list_collection, bind.
  rewrite (readData_stored _ _ _ H). reflexivity.
Qed.

(** X12. After a submission that replied success, the listing of its
    collection shows the records that were there followed by the new one,
    and its count is one more. *)
Theorem listing_after_submit cfg hdr c e b w w' items :
  adminAuth cfg hdr = Next ->
  disk w !! fileOf c = Some (mkNode true (Json (DArray items))) ->
  handler c e b w = (w', Return Success) ->
  get_collection cfg hdr c w =
    (w, Return (Served (mkListing (Some (List.length items)) (DArray items)))) /\
  get_collection cfg hdr c w' =
    (w', Return (Served (mkListing (Some (S (List.length items)))
                           (DArray (items ++ [recordOf c e b]))))).
Proof.
  intros Hauth Hdisk Hh. unfold get_collection. split.
  - apply behind_Next; [exact Hauth|]. now apply list_collection_array.
  - apply behind_Next; [exact Hauth|].
    destruct (handler_cases c e b w) as [[_ Heq]|[_ [m Heq]]];
      rewrite Heq in Hh; [|discriminate].
    apply save_Success_inv in Hh as (items' & Hread & -> & _).
    rewrite (readData_stored _ _ _ Hdisk) in Hread. cbn [snd] in Hread.
    injection Hread as <-.
    rewrite (list_collection_array _ _ (items ++ [recordOf c e b])).
    + rewrite length_app. cbn [List.length]. now rewrite Nat.add_1_r.
    + rewrite (disk_putContent _ _ _ _ Hdisk). reflexivity.
Qed.

Lemma listing_after_submit_witness :
  get_collection (mkConfig true (Some "s3cret")) (Some "s3cret") Leads world0 =
    (world0, Return (Served (mkListing (Some (List.length (@nil json))) (DArray [])))) /\
  get_collection (mkConfig true (Some "s3cret")) (Some "s3cret") Leads
    (exec (handler Leads (calm 1793591645123) jo) world0) =
    (exec (handler Leads (calm 1793591645123) jo) world0,
     Return (Served (mkListing (Some (S (List.length (@nil json))))
                       (DArray ([] ++ [recordOf Leads (calm 1793591645123) jo]))))).
Proof.
  apply (listing_after_submit (mkConfig true (Some "s3cret")) (Some "s3cret") Leads
           (calm 1793591645123) jo world0 _ []).
  - reflexivity.
  - vm_compute. reflexivity.
  - vm_compute. reflexivity.
Defined.

(** ** The CSV export *)

Lemma append_assoc (a b c : string) : ((a ++ b) ++ c = a ++ (b ++ c))%string.
Proof. induction a as [|x a IH]; [reflexivity|]. rewrite !append_cons, IH. reflexivity. Qed.

Lemma append_empty_r (a : string) : (a ++ EmptyString)%string = a.
Proof. induction a as [|x a IH]; [reflexivity|]. now rewrite append_cons, IH. Qed.

Lemma addText_field s f fs rs :
  addText s ((f :: fs) :: rs) = ((s ++ f)%string :: fs) :: rs.
Proof.
  induction s as [|c s IH]; [reflexivity|].
  cbn [addText]. rewrite IH, append_cons. reflexivity.
Qed.

Lemma bare_name h rest :
  bareName h = true ->
  Rfc4180.bare (h ++ rest) = addText h (Rfc4180.bare rest).
Proof.
  induction h as [|c h IH]; intros Hb; [reflexivity|].
  cbn [bareName Str.all] in Hb. apply andb_true_iff in Hb as [Hc Hh].
  apply negb_true_iff, orb_false_iff in Hc as [Hc Hq].
  apply orb_false_iff in Hc as [Hc Hn].
  rewrite append_cons. cbn [Rfc4180.bare addText]. rewrite Hc, Hn, Hq.
  now rewrite IH.
Qed.

Lemma quoted_cell s rest :
  Rfc4180.quoted (doubleQuotes s ++ String dquote rest) =
  addText s (Rfc4180.afterQuote rest).
Proof.
  induction s as [|c s IH].
  - cbn [doubleQuotes addText]. rewrite append_empty. cbn [Rfc4180.quoted].
    now rewrite Ascii.eqb_refl.
  - cbn [doubleQuotes addText]. destruct (Ascii.eqb c dquote) eqn:Hc.
    + apply Ascii.eqb_eq in Hc as ->. rewrite !append_cons.
      cbn [Rfc4180.quoted]. rewrite Ascii.eqb_refl. cbn [Rfc4180.afterQuote].
      rewrite Ascii.eqb_refl. now rewrite IH.
    + rewrite append_cons. cbn [Rfc4180.quoted]. rewrite Hc. now rewrite IH.
Qed.

Lemma bare_quoteCell s rest :
  Rfc4180.bare (quoteCell s ++ rest) = addText s (Rfc4180.afterQuote rest).
Proof.
  unfold quoteCell. rewrite append_cons. cbn [Rfc4180.bare].
  rewrite append_assoc, append_cons, append_empty.
  replace (Ascii.eqb dquote ",") with false by reflexivity.
  replace (Ascii.eqb dquote newline) with false by reflexivity.
  rewrite Ascii.eqb_refl. apply quoted_cell.
Qed.

Lemma concat_cons sep (x y : string) l :
  String.concat sep (x :: y :: l) = (x ++ sep ++ String.concat sep (y :: l))%string.
Proof. reflexivity. Qed.

(** A line of quoted cells, read up to the end of the text or the next
    line break. *)
Lemma read_line cells : forall tail rs,
  cells <> [] ->
  Rfc4180.afterQuote tail = [EmptyString] :: rs ->
  Rfc4180.bare (lineOf cells ++ tail) = cells :: rs.
Proof.
  induction cells as [|c cells IH]; intros tail rs Hne Htail; [congruence|].
  unfold lineOf in *. destruct cells as [|c' cells].
  - cbn [fmap list_fmap String.concat]. rewrite bare_quoteCell, Htail.
    rewrite addText_field, append_empty_r. reflexivity.
  - rewrite !fmap_cons, concat_cons, !append_assoc, bare_quoteCell.
    rewrite append_cons, append_empty. cbn [Rfc4180.afterQuote].
    replace (Ascii.eqb "," dquote) with false by reflexivity.
    rewrite Ascii.eqb_refl. rewrite <- fmap_cons.
    rewrite (IH tail rs) by (discriminate || assumption).
    cbn [Rfc4180.newField]. rewrite addText_field, append_empty_r. reflexivity.
Qed.

(** The header line, which is not quoted. *)
Lemma read_header headers : forall tail rs,
  headers <> [] ->
  Forall (fun h => bareName h = true) headers ->
  Rfc4180.bare tail = [EmptyString] :: rs ->
  Rfc4180.bare (String.concat "," headers ++ tail) = headers :: rs.
Proof.
  induction headers as [|h headers IH]; intros tail rs Hne Hall Htail; [congruence|].
  apply Forall_cons in Hall as [Hh Hall]. destruct headers as [|h' headers].
  - cbn [String.concat]. rewrite bare_name by exact Hh. rewrite Htail.
    rewrite addText_field, append_empty_r. reflexivity.
  - rewrite concat_cons, !append_assoc, bare_name by exact Hh.
    rewrite append_cons, append_empty. cbn [Rfc4180.bare]. rewrite Ascii.eqb_refl.
    rewrite (IH tail rs) by (discriminate || assumption).
    cbn [Rfc4180.newField]. rewrite addText_field, append_empty_r. reflexivity.
Qed.

Lemma read_lines rows : forall row,
  Forall (fun cells => cells <> []) (row :: rows) ->
  Rfc4180.bare (String.concat (String newline EmptyString) (lineOf <$> row :: rows))
  = row :: rows.
Proof.
  induction rows as [|row' rows IH]; intros row Hall;
    apply Forall_cons in Hall as [Hrow Hall].
  - cbn [fmap list_fmap String.concat].
    rewrite <- (append_empty_r (lineOf row)). now apply read_line.
  - rewrite !fmap_cons, concat_cons. apply read_line; [exact Hrow|].
    rewrite append_cons, append_empty. cbn [Rfc4180.afterQuote].
    replace (Ascii.eqb newline dquote) with false by reflexivity.
    replace (Ascii.eqb newline ",") with false by reflexivity.
    rewrite Ascii.eqb_refl. rewrite <- fmap_cons. rewrite IH by exact Hall.
    reflexivity.
Qed.

Lemma mapM_ret {A B} (f : A -> M B) (g : A -> B) xs w :
  Forall (fun x => forall w, f x w = (w, Return (g x))) xs ->
  mapM f xs w = (w, Return (g <$> xs)).
Proof.
  induction 1 as [|x xs Hx _ IH]; [reflexivity|].
  cbn [mapM]. unfold bind. rewrite Hx, IH. reflexivity.
Qed.

Lemma csvRow_printable inherited headers row w :
  printable inherited headers row = true ->
  csvRow inherited headers row w =
    (w, Return (lineOf (cellsOf inherited headers row))).
Proof.
  intros Hp. unfold csvRow, bind.
  rewrite (mapM_ret _ (fun h => quoteCell (default EmptyString (cellText inherited row h)))).
  - unfold ret, lineOf, cellsOf. now rewrite <- list_fmap_compose.
  - unfold printable in Hp. rewrite forallb_forall in Hp.
    apply Forall_forall. intros h Hin w0.
    specialize (Hp h (proj1 (list_elem_of_In _ _) Hin)).
    unfold bind. destruct (cellText inherited row h); [reflexivity|discriminate].
Qed.

Lemma toCsv_records inherited fields rows w :
  Forall (fun row => printable inherited (fst <$> fields) row = true) rows ->
  toCsv inherited (JObj fields) rows w =
    (w, Return (String.concat (String newline EmptyString)
                  (String.concat "," (fst <$> fields) ::
                   (lineOf <$> (cellsOf inherited (fst <$> fields) <$> rows))))).
Proof.
  intros Hrows. unfold toCsv, bind. cbn [keys properties ret].
  rewrite (mapM_ret _ (fun row => lineOf (cellsOf inherited (fst <$> fields) row))).
  - unfold ret. now rewrite <- list_fmap_compose.
  - eapply Forall_impl; [exact Hrows|]. intros row Hp w0. now apply csvRow_printable.
Qed.

(** X13. Take a collection of records as [JSON.parse] gives them, whose
    cells all convert to text and whose field names hold no comma, line
    break or double quote.  Its export is a text that a reader of
    comma-separated values reads back as the header names followed by the
    cells of every record, whatever characters the cells hold; the cell of
    a record without the field is the text of what the record inherits
    under that name, or empty. *)
Theorem export_read_back inherited type file filename w first rest :
  exportFile type = Some (file, filename) ->
  disk w !! file = Some (mkNode true (Json (DArray (first :: rest)))) ->
  Forall isRecord (first :: rest) ->
  Forall (fun row => exact row = true) (first :: rest) ->
  fst <$> properties first <> [] ->
  Forall (fun h => bareName h = true) (fst <$> properties first) ->
  Forall (fun row => printable inherited (fst <$> properties first) row = true)
         (first :: rest) ->
  exists text,
    export inherited type w = (w, Return (Csv filename text)) /\
    Rfc4180.read text =
      (fst <$> properties first) ::
      (cellsOf inherited (fst <$> properties first) <$> first :: rest).
Proof.
  intros Htype Hdisk Hrec _ Hne Hbare Hprint.
  pose proof Hrec as Hfirst. apply Forall_cons in Hfirst as [[fields ->] _].
  cbn [properties] in *. eexists. split.
  - unfold export. rewrite Htype. unfold bind.
    rewrite (readData_stored _ _ _ Hdisk), toCsv_records by exact Hprint.
    reflexivity.
  - unfold Rfc4180.read.
    set (hs := fst <$> fields) in *.
    change (cellsOf inherited hs <$> JObj fields :: rest)
      with (cellsOf inherited hs (JObj fields) :: (cellsOf inherited hs <$> rest)).
    set (row := cellsOf inherited hs (JObj fields)).
    set (rows := cellsOf inherited hs <$> rest).
    change (lineOf <$> row :: rows) with (lineOf row :: (lineOf <$> rows)).
    rewrite concat_cons. apply read_header; [exact Hne|exact Hbare|].
    rewrite append_cons, append_empty. cbn [Rfc4180.bare].
    replace (Ascii.eqb newline ",") with false by reflexivity.
    rewrite Ascii.eqb_refl. unfold Rfc4180.newRecord. f_equal.
    apply (read_lines rows row). subst row rows.
    change (Forall (fun cells => cells <> [])
              (cellsOf inherited hs <$> JObj fields :: rest)).
    apply Forall_fmap, Forall_forall. intros r _. cbn.
    unfold cellsOf. destruct hs; [congruence|discriminate].
Qed.

Lemma export_read_back_witness :
  exists text,
    export objectsInV8 "leads" handEdited = (handEdited, Return (Csv "leads.csv" text)) /\
    Rfc4180.read text =
      ["id"; "name"] ::
      [["7"; ("Doe, " ++ String dquote "Jo")%string]; [EmptyString; EmptyString]].
Proof.
  apply (export_read_back objectsInV8 "leads" DATA_FILES.leads "leads.csv" handEdited
           (JObj [("id", JNum 7); ("name", JStr ("Doe, " ++ String dquote "Jo"))])
           [JObj [("name", JNull)]]).
  - reflexivity.
  - vm_compute. reflexivity.
  - repeat constructor; eexists; reflexivity.
  - repeat constructor.
  - discriminate.
  - repeat constructor.
  - repeat constructor.
Defined.

(** A record without a field that objects inherit shows what it inherits:
    under the header [constructor] the second record has the text of the
    function [Object]. *)
Example export_shows_inherited :
  exists text,
    export objectsInV8 "leads" withConstructor
      = (withConstructor, Return (Csv "leads.csv" text)) /\
    Rfc4180.read text =
      [["constructor"; "name"];
       ["c1"; "A"];
       ["function Object() { [native code] }"; "B"]].
Proof. eexists. split; vm_compute; reflexivity. Qed.

Lemma readData_fallback file w :
  disk w !! file = None \/
  (exists n, disk w !! file = Some n /\
             (readable n = false \/ data n = Malformed)) ->
  readData file w = (w, Return (DArray [])).
Proof.
  unfold readData, tryCatch, bind, readFileSync.
  intros [->|(n & -> & [Hr|Hd])]; [reflexivity| |].
  - rewrite Hr. reflexivity.
  - destruct (readable n); [|reflexivity]. rewrite Hd. reflexivity.
Qed.

(** X14. The export of a collection whose file is missing, cannot be read,
    does not hold JSON or holds the empty array replies that there is no
    data, and changes nothing. *)
Theorem export_without_data inherited type file filename w :
  exportFile type = Some (file, filename) ->
  disk w !! file = None \/
  (exists n, disk w !! file = Some n /\
     (readable n = false \/ data n = Malformed \/ data n = Json (DArray []))) ->
  export inherited type w = (w, Return NoData).
Proof.
  intros Htype Hfile. unfold export, bind. rewrite Htype.
  assert (Hread : readData file w = (w, Return (DArray []))).
  { destruct Hfile as [Hnone|(n & Hn & [Hr|[Hd|Hd]])].
    - apply readData_fallback. now left.
    - apply readData_fallback. right. eauto.
    - apply readData_fallback. right. eauto.
    - destruct (readable n) eqn:Hr.
      + apply readData_stored. rewrite Hn. destruct n; cbn in *. now subst.
      + apply readData_fallback. right. eauto. }
  rewrite Hread. reflexivity.
Qed.

Lemma export_without_data_witness :
  export objectsInV8 "contacts" (mkWorld ∅ ∅) = (mkWorld ∅ ∅, Return NoData).
Proof.
  apply (export_without_data objectsInV8 "contacts" DATA_FILES.contacts "contacts.csv").
  - reflexivity.
  - left. reflexivity.
Defined.

(** X15. The total of [GET /api/all] is the number of records of the three
    collections, and a submission that replied success raises it by one. *)
Theorem all_after_submit cfg hdr c e b w w' ls cs vs :
  adminAuth cfg hdr = Next ->
  disk w !! DATA_FILES.leads = Some (mkNode true (Json (DArray ls))) ->
  disk w !! DATA_FILES.contacts = Some (mkNode true (Json (DArray cs))) ->
  disk w !! DATA_FILES.investors = Some (mkNode true (Json (DArray vs))) ->
  handler c e b w = (w', Return Success) ->
  let n := List.length ls + List.length cs + List.length vs in
  (exists s, get_all cfg hdr w = (w, Return (Served s)) /\ all_total s = Some n) /\
  (exists s', get_all cfg hdr w' = (w', Return (Served s')) /\ all_total s' = Some (S n)).
Proof.
  intros Hauth Hl Hc Hv Hh n. split.
  - eexists. split.
    + unfold get_all. apply behind_Next; [exact Hauth|]. unfold bind.
      rewrite (readData_stored _ _ _ Hl), (readData_stored _ _ _ Hc),
        (readData_stored _ _ _ Hv). reflexivity.
    + reflexivity.
  - destruct (handler_cases c e b w) as [[_ Heq]|[_ [m Heq]]];
      rewrite Heq in Hh; [|discriminate].
    apply save_Success_inv in Hh as (items & Hread & -> & _).
    destruct c; cbn [fileOf] in *.
    + rewrite (readData_stored _ _ _ Hl) in Hread. injection Hread as <-.
      eexists. split.
      * unfold get_all. apply behind_Next; [exact Hauth|]. unfold bind.
        rewrite (readData_stored DATA_FILES.leads _ (DArray (ls ++ [lead e b])))
          by (rewrite (disk_putContent _ _ _ _ Hl); reflexivity).
        rewrite (readData_stored DATA_FILES.contacts _ (DArray cs))
          by (rewrite disk_putContent_ne by discriminate; exact Hc).
        rewrite (readData_stored DATA_FILES.investors _ (DArray vs))
          by (rewrite disk_putContent_ne by discriminate; exact Hv).
        reflexivity.
      * cbn [all_total]. rewrite List.length_app. cbn [List.length]. f_equal. lia.
    + rewrite (readData_stored _ _ _ Hc) in Hread. injection Hread as <-.
      eexists. split.
      * unfold get_all. apply behind_Next; [exact Hauth|]. unfold bind.
        rewrite (readData_stored DATA_FILES.leads _ (DArray ls))
          by (rewrite disk_putContent_ne by discriminate; exact Hl).
        rewrite (readData_stored DATA_FILES.contacts _ (DArray (cs ++ [contact e b])))
          by (rewrite (disk_putContent _ _ _ _ Hc); reflexivity).
        rewrite (readData_stored DATA_FILES.investors _ (DArray vs))
          by (rewrite disk_putContent_ne by discriminate; exact Hv).
        reflexivity.
      * cbn [all_total]. rewrite List.length_app. cbn [List.length]. f_equal. lia.
    + rewrite (readData_stored _ _ _ Hv) in Hread. injection Hread as <-.
      eexists. split.
      * unfold get_all. apply behind_Next; [exact Hauth|]. unfold bind.
        rewrite (readData_stored DATA_FILES.leads _ (DArray ls))
          by (rewrite disk_putContent_ne by discriminate; exact Hl).
        rewrite (readData_stored DATA_FILES.contacts _ (DArray cs))
          by (rewrite disk_putContent_ne by discriminate; exact Hc).
        rewrite (readData_stored DATA_FILES.investors _ (DArray (vs ++ [investor e b])))
          by (rewrite (disk_putContent _ _ _ _ Hv); reflexivity).
        reflexivity.
      * cbn [all_total]. rewrite List.length_app. cbn [List.length]. f_equal. lia.
Qed.

Lemma all_after_submit_witness :
  let n := List.length (@nil json) + List.length (@nil json) + List.length (@nil json) in
  (exists s, get_all (mkConfig false None) None world0 = (world0, Return (Served s)) /\
             all_total s = Some n) /\
  (exists s', get_all (mkConfig false None) None
                (exec (handler Contacts (calm 1793591645123)
                         (mkBody (Some "Jo") (Some "jo@x.com") None None (Some "Hello")
                                 None None)) world0)
              = (exec (handler Contacts (calm 1793591645123)
                         (mkBody (Some "Jo") (Some "jo@x.com") None None (Some "Hello")
                                 None None)) world0,
                 Return (Served s')) /\
              all_total s' = Some (S n)).
Proof.
  apply (all_after_submit (mkConfig false None) None Contacts (calm 1793591645123)
           (mkBody (Some "Jo") (Some "jo@x.com") None None (Some "Hello") None None)
           world0 _ [] [] []).
  - reflexivity.
  - vm_compute. reflexivity.
  - vm_compute. reflexivity.
  - vm_compute. reflexivity.
  - vm_compute. reflexivity.
Defined.

(** ** The analytics summary *)

Lemma addCounts_insert pages k v total :
  pages !! k = None ->
  addCounts (<[k := v]> pages) total = (addCounts pages total + v)%Z.
Proof.
  intros Hk. unfold addCounts.
  rewrite map_fold_insert_L; [reflexivity| |exact Hk].
  intros; cbv beta; lia.
Qed.

Lemma addCounts_total pages total :
  addCounts pages total = (total + addCounts pages 0)%Z.
Proof.
  induction pages as [|k v pages Hk IH] using map_ind.
  - unfold addCounts. rewrite !map_fold_empty. lia.
  - rewrite !addCounts_insert by exact Hk. lia.
Qed.

Lemma addCounts_update pages k v :
  addCounts (<[k := v]> pages) 0 =
  (addCounts pages 0 - default 0 (pages !! k) + v)%Z.
Proof.
  destruct (pages !! k) as [old|] eqn:Hk; cbn [default].
  - transitivity (addCounts (<[k := old]> (delete k pages)) 0 - old + v)%Z;
      [|now rewrite insert_delete_id].
    rewrite <- insert_delete_eq, !addCounts_insert by apply lookup_delete_eq. lia.
  - rewrite addCounts_insert by exact Hk. lia.
Qed.

Lemma totalViewsOf_insert pv d pages :
  pv !! d = None ->
  totalViewsOf (<[d := pages]> pv) = (totalViewsOf pv + addCounts pages 0)%Z.
Proof.
  intros Hd. unfold totalViewsOf.
  rewrite map_fold_insert_L; [apply addCounts_total| |exact Hd].
  intros d1 d2 z1 z2 y _ _ _. cbv beta.
  rewrite (addCounts_total z1 (addCounts z2 y)), (addCounts_total z2 (addCounts z1 y)),
    (addCounts_total z2 y), (addCounts_total z1 y). lia.
Qed.

Lemma totalViewsOf_update pv d pages :
  totalViewsOf (<[d := pages]> pv) =
  (totalViewsOf pv - addCounts (default ∅ (pv !! d)) 0 + addCounts pages 0)%Z.
Proof.
  destruct (pv !! d) as [old|] eqn:Hd; cbn [default].
  - transitivity (totalViewsOf (<[d := old]> (delete d pv)) - addCounts old 0
                  + addCounts pages 0)%Z;
      [|now rewrite insert_delete_id].
    rewrite <- insert_delete_eq, !totalViewsOf_insert by apply lookup_delete_eq. lia.
  - rewrite totalViewsOf_insert by exact Hd.
    unfold addCounts at 2. rewrite map_fold_empty. lia.
Qed.

Lemma todayViewsOf_spec key pv :
  todayViewsOf key pv = addCounts (default ∅ (pv !! key)) 0.
Proof.
  unfold todayViewsOf.
  apply (map_fold_weak_ind (fun r m => r = addCounts (default ∅ (m !! key)) 0)).
  - rewrite lookup_empty. reflexivity.
  - intros d pages m r Hd ->. destruct (String.eqb d key) eqn:Heq.
    + apply String.eqb_eq in Heq as ->. rewrite lookup_insert_eq, Hd. cbn [default].
      unfold addCounts. rewrite map_fold_empty. reflexivity.
    + assert (d <> key) by (intros ->; now rewrite String.eqb_refl in Heq).
      rewrite lookup_insert_ne by assumption.
      apply (map_fold_weak_ind (fun r' _ => r' = addCounts (default ∅ (m !! key)) 0));
        auto.
Qed.

Lemma viewsOn_countView today page a d p :
  viewsOn (default ∅ (pageViews (countView today page a))) d p =
  (viewsOn (default ∅ (pageViews a)) d p +
   if decide (d = today /\ p = page) then 1 else 0)%Z.
Proof.
  unfold countView, viewsOn. set (pv := default ∅ (pageViews a)).
  cbn [pageViews]. change (default ∅ (Some ?m)) with m.
  destruct (decide (d = today)) as [->|Hd].
  - rewrite lookup_insert_eq.
    change (Some ?m ≫= ?f) with (f m). cbv beta.
    destruct (decide (p = page)) as [->|Hp].
    + rewrite lookup_insert_eq, decide_True by auto.
      destruct (pv !! today) as [day|]; [reflexivity|].
      cbn. rewrite lookup_empty. reflexivity.
    + rewrite lookup_insert_ne by congruence. rewrite decide_False by tauto.
      rewrite Z.add_0_r.
      destruct (pv !! today) as [day|]; [reflexivity|].
      cbn. rewrite lookup_empty. reflexivity.
  - rewrite lookup_insert_ne by congruence. rewrite decide_False by tauto.
    now rewrite Z.add_0_r.
Qed.

Lemma totals_countView today page a :
  let pv := default ∅ (pageViews a) in
  let pv' := default ∅ (pageViews (countView today page a)) in
  totalViewsOf pv' = (totalViewsOf pv + 1)%Z /\
  todayViewsOf today pv' = (todayViewsOf today pv + 1)%Z.
Proof.
  cbv zeta. unfold countView. set (pv := default ∅ (pageViews a)).
  set (day := default ∅ (pv !! today)).
  cbn [pageViews]. change (default ∅ (Some ?m)) with m.
  rewrite totalViewsOf_update, !todayViewsOf_spec, lookup_insert_eq. cbn [default].
  fold day. change (id (<[page := ?v]> day)) with (<[page := v]> day).
  rewrite !addCounts_update.
  generalize (default 0%Z (day !! page)), (addCounts day 0), (totalViewsOf pv).
  intros; lia.
Qed.

Lemma get_analytics_object cfg hdr e w a :
  adminAuth cfg hdr = Next ->
  disk w !! DATA_FILES.analytics = Some (mkNode true (Json (DObject a))) ->
  get_analytics cfg hdr e w =
    (w, Return (Served
          (mkSummary (totalViewsOf (default ∅ (pageViews a)))
                     (todayViewsOf (Clock.getDateKey (now e 0)) (default ∅ (pageViews a)))
                     (default ∅ (pageViews a))
                     (take 20 (default [] (referrers a)))))).
Proof.
  intros Hauth Hdisk. unfold get_analytics. apply behind_Next; [exact Hauth|].
  unfold bind. rewrite (readData_stored _ _ _ Hdisk). reflexivity.
Qed.

(** X16. A page view tracked while [analytics.json] holds an object and
    nothing goes wrong raises [totalViews] by one, [todayViews] of that day
    by one and the count of the page on that day by one, and changes no
    other count. *)
Theorem page_view_counted cfg hdr e e' page referer w a :
  adminAuth cfg hdr = Next ->
  disk w !! DATA_FILES.analytics = Some (mkNode true (Json (DObject a))) ->
  DATA_FILES.analytics ∉ held w ->
  quiet e ->
  Clock.getDateKey (now e' 0) = Clock.getDateKey (now e 0) ->
  let w' := exec (trackPageView e page referer) w in
  exists s s',
    get_analytics cfg hdr e' w = (w, Return (Served s)) /\
    get_analytics cfg hdr e' w' = (w', Return (Served s')) /\
    totalViews s' = (totalViews s + 1)%Z /\
    todayViews s' = (todayViews s + 1)%Z /\
    forall d p,
      viewsOn (daily s') d p =
      (viewsOn (daily s) d p +
       if decide (d = Clock.getDateKey (now e 0) /\ p = page) then 1 else 0)%Z.
Proof.
  intros Hauth Hdisk Hfree Hq Hday w'. subst w'.
  rewrite (trackPageView_object e page referer w a) by assumption.
  eexists _, _. split; [apply get_analytics_object; eassumption|].
  split.
  { apply get_analytics_object; [exact Hauth|].
    rewrite (disk_putContent _ _ _ _ Hdisk). reflexivity. }
  cbn [totalViews todayViews daily]. rewrite Hday.
  unfold noteReferrer at 1 2 3. cbn [pageViews].
  destruct (totals_countView (Clock.getDateKey (now e 0)) page a) as [Ht Hd].
  split; [exact Ht|]. split; [exact Hd|].
  intros d p. apply viewsOn_countView.
Qed.

Lemma page_view_counted_witness :
  let w' := exec (trackPageView (calm 1793591645123) "/index.html" None) withOldEvent in
  exists s s',
    get_analytics (mkConfig false None) None (calm 1793591650000) withOldEvent
      = (withOldEvent, Return (Served s)) /\
    get_analytics (mkConfig false None) None (calm 1793591650000) w'
      = (w', Return (Served s')) /\
    totalViews s' = (totalViews s + 1)%Z /\
    todayViews s' = (todayViews s + 1)%Z /\
    forall d p,
      viewsOn (daily s') d p =
      (viewsOn (daily s) d p +
       if decide (d = Clock.getDateKey (now (calm 1793591645123) 0) /\ p = "/index.html")
       then 1 else 0)%Z.
Proof.
  apply (page_view_counted (mkConfig false None) None (calm 1793591645123)
           (calm 1793591650000) "/index.html" None withOldEvent oldAnalytics).
  - reflexivity.
  - vm_compute. reflexivity.
  - vm_compute. set_solver.
  - split; reflexivity.
  - vm_compute. reflexivity.
Defined.

(** ** Date keys and the event window *)

(** X17. Up to the year 9999 the date keys compare as texts the way their
    days follow each other, which is what the pruning of events relies on,
    and two readings of the clock have the same key exactly when they are
    of the same day. *)
Theorem getDateKey_order t1 t2 :
  (Clock.year (Clock.dateOfDay (Clock.dayNumber t1)) < 10000)%N ->
  (Clock.year (Clock.dateOfDay (Clock.dayNumber t2)) < 10000)%N ->
  (Str.lt (Clock.getDateKey t1) (Clock.getDateKey t2) = true <->
   (Clock.dayNumber t1 < Clock.dayNumber t2)%nat) /\
  (Clock.getDateKey t1 = Clock.getDateKey t2 <->
   Clock.dayNumber t1 = Clock.dayNumber t2).
Proof.
  intros Hy1 Hy2. rewrite !getDateKey_spec.
  set (n := Clock.dayNumber t1) in *. set (m := Clock.dayNumber t2) in *.
  assert (Hlt : forall a b, (a < b)%nat ->
            (Clock.year (Clock.dateOfDay b) < 10000)%N ->
            Clock.dateString (Clock.dateOfDay a) <> Clock.dateString (Clock.dateOfDay b)).
  { intros a b Hab Hy Heq. pose proof (dateKey_lt a b Hab Hy) as H.
    rewrite Heq, lt_irrefl in H. discriminate. }
  split; split.
  - intros H. destruct (Nat.lt_ge_cases n m) as [|Hge]; [assumption|].
    rewrite (dateKey_not_lt n m Hge Hy1) in H. discriminate.
  - intros H. now apply dateKey_lt.
  - intros Heq. destruct (Nat.lt_trichotomy n m) as [Hnm|[Hnm|Hnm]]; [|exact Hnm|].
    + exfalso. eapply Hlt; eauto.
    + exfalso. eapply Hlt; eauto.
  - now intros ->.
Qed.

Lemma getDateKey_order_witness :
  (Str.lt (Clock.getDateKey 1793591645123) (Clock.getDateKey 1793678045123) = true <->
   (Clock.dayNumber 1793591645123 < Clock.dayNumber 1793678045123)%nat) /\
  (Clock.getDateKey 1793591645123 = Clock.getDateKey 1793678045123 <->
   Clock.dayNumber 1793591645123 = Clock.dayNumber 1793678045123).
Proof.
  apply (getDateKey_order 1793591645123 1793678045123).
  - vm_compute. reflexivity.
  - vm_compute. reflexivity.
Defined.

Lemma keyOfDay_inj n m :
  (Clock.year (Clock.dateOfDay n) < 10000)%N ->
  (Clock.year (Clock.dateOfDay m) < 10000)%N ->
  keyOfDay n = keyOfDay m -> n = m.
Proof.
  intros Hn Hm Heq. unfold keyOfDay in Heq.
  destruct (Nat.lt_trichotomy n m) as [Hnm|[Hnm|Hnm]]; [|exact Hnm|]; exfalso.
  - pose proof (dateKey_lt n m Hnm Hm) as H. rewrite Heq, lt_irrefl in H. discriminate.
  - pose proof (dateKey_lt m n Hnm Hn) as H. rewrite Heq, lt_irrefl in H. discriminate.
Qed.

(** X18. Recording an event in a process whose zone offset is the same as
    seven days before keeps the events of every other day that is at most
    seven days before the day the clock shows, the seventh included. *)
Theorem events_of_the_week_kept e b w a n :
  disk w !! DATA_FILES.analytics = Some (mkNode true (Json (DObject a))) ->
  DATA_FILES.analytics ∉ held w ->
  quiet e ->
  noEvent (req_event b) = false ->
  (7 * Clock.msPerDay <= now e 2)%N ->
  Clock.steady (timeZone e) 7 (now e 2) ->
  (Clock.year (Clock.dateOfDay n) < 10000)%N ->
  (Clock.year (Clock.dateOfDay (Clock.dayNumber (now e 0))) < 10000)%N ->
  (Clock.dayNumber (now e 2) - 7 <= n)%nat ->
  n <> Clock.dayNumber (now e 0) ->
  exists evs,
    persistedEvents (exec (post_event e b) w) = Some evs /\
    evs !! keyOfDay n = default ∅ (events a) !! keyOfDay n.
Proof.
  intros Hdoc Hfree Hq Hev Hweek Hzone Hyn Hy0 Hn Hne.
  unfold exec. rewrite (post_event_object e b w a) by assumption. cbn [fst].
  unfold persistedEvents. rewrite stored_putContent.
  unfold recordEvent. cbn [events]. eexists. split; [reflexivity|].
  unfold prune. rewrite (cutoffKey_spec _ _ Hweek Hzone).
  assert (Hkeep : Str.lt (keyOfDay n)
            (Clock.dateString (Clock.dateOfDay (Clock.dayNumber (now e 2) - 7))) = false).
  { apply dateKey_not_lt; assumption. }
  assert (Hkey : Clock.getDateKey (now e 0) <> keyOfDay n).
  { rewrite getDateKey_spec. intros Heq. apply Hne.
    apply keyOfDay_inj; [assumption..|]. symmetry. exact Heq. }
  destruct (default ∅ (events a) !! keyOfDay n) as [l|] eqn:Hl.
  - apply map_lookup_filter_Some. split; [|exact Hkeep].
    rewrite lookup_insert_ne by exact Hkey. exact Hl.
  - apply map_lookup_filter_None. left.
    rewrite lookup_insert_ne by exact Hkey. exact Hl.
Qed.

Lemma events_of_the_week_kept_witness :
  exists evs,
    persistedEvents (exec (post_event (calm 1793591645123) click)
       (putContent DATA_FILES.analytics
          (Json (DObject (mkAnalytics None None (Some {["2026-10-26" := [oldEvent]]}))))
          world0)) = Some evs /\
    evs !! keyOfDay (N.to_nat 20752) =
      default ∅ (events (mkAnalytics None None (Some {["2026-10-26" := [oldEvent]]})))
        !! keyOfDay (N.to_nat 20752).
Proof.
  apply (events_of_the_week_kept (calm 1793591645123) click _
           (mkAnalytics None None (Some {["2026-10-26" := [oldEvent]]}))
           (N.to_nat 20752)).
  - vm_compute. reflexivity.
  - vm_compute. set_solver.
  - split; reflexivity.
  - reflexivity.
  - vm_compute. discriminate.
  - reflexivity.
  - vm_compute. reflexivity.
  - vm_compute. reflexivity.
  - apply Nat.leb_le. vm_compute. reflexivity.
  - apply Nat.eqb_neq. vm_compute. reflexivity.
Defined.

(** ** Page views and events *)




(** X20. [trackPageView] never throws; it leaves the locks as they were and
    changes no file but [analytics.json]. *)
Theorem trackPageView_contained e page referer w :
  exists w',
    trackPageView e page referer w = (w', Return tt) /\
    held w' = held w /\
    forall g, g <> DATA_FILES.analytics -> disk w' !! g = disk w !! g.
Proof.
  unfold trackPageView, tryCatch, bind.
  destruct (readData_returns DATA_FILES.analytics w) as [d ->].
  assert (Hwrite : forall d',
    exists w', match writeData e DATA_FILES.analytics d' w with
               | (w1, Return a) => (w1, Return a)
               | (w1, Throw _) => ret tt w1
               end = (w', Return tt) /\
               held w' = held w /\
               forall g, g <> DATA_FILES.analytics -> disk w' !! g = disk w !! g).
  { intros d'. pose proof (writeData_held e DATA_FILES.analytics d' w) as Hh.
    pose proof (fun g => writeData_disk_ne e DATA_FILES.analytics d' w g) as Hd.
    destruct (writeData e DATA_FILES.analytics d' w) as [w1 [[]|err]];
      cbn [fst] in *; exists w1; (split; [reflexivity|]); split; auto. }
  destruct d as [items|a| |j]; try apply Hwrite; exists w; auto.
Qed.

(** X21. The event endpoint always replies, leaves the locks as they were
    and changes no file but [analytics.json]; without an event name it
    replies 400 and changes nothing, and with one it replies success or
    the server error. *)
Theorem post_event_contained e b w :
  exists w' resp,
    post_event e b w = (w', Return resp) /\
    held w' = held w /\
    (forall g, g <> DATA_FILES.analytics -> disk w' !! g = disk w !! g) /\
    (noEvent (req_event b) = true ->
     w' = w /\ resp = BadRequest "Event name required") /\
    (noEvent (req_event b) = false -> resp = Success \/ resp = ServerError).
Proof.
  unfold post_event. destruct (noEvent (req_event b)).
  { exists w, (BadRequest "Event name required"). repeat split; auto; discriminate. }
  unfold tryCatch, bind.
  destruct (readData_returns DATA_FILES.analytics w) as [d ->].
  assert (Hwrite : forall d',
    exists w' resp,
      match match writeData e DATA_FILES.analytics d' w with
            | (w1, Return _) => ret Success w1
            | (w1, Throw err) => (w1, Throw err)
            end with
      | (w1, Return a) => (w1, Return a)
      | (w1, Throw _) => ret ServerError w1
      end = (w', Return resp) /\
      held w' = held w /\
      (forall g, g <> DATA_FILES.analytics -> disk w' !! g = disk w !! g) /\
      (false = true -> w' = w /\ resp = BadRequest "Event name required") /\
      (false = false -> resp = Success \/ resp = ServerError)).
  { intros d'. pose proof (writeData_held e DATA_FILES.analytics d' w) as Hh.
    pose proof (fun g => writeData_disk_ne e DATA_FILES.analytics d' w g) as Hd.
    destruct (writeData e DATA_FILES.analytics d' w) as [w1 [[]|err]];
      cbn [fst] in *; exists w1; eexists; (split; [reflexivity|]);
      repeat split; auto; discriminate. }
  destruct d as [items|a| |j]; try apply Hwrite;
    exists w, ServerError; repeat split; auto; discriminate.
Qed.

(** ** Requests in flight *)

(** X22. However the segments of requests that have just arrived are
    scheduled, no two requests are at once between taking and releasing
    the lock of the same file, and a request in that region holds the
    lock. *)
Theorem locked_regions_exclusive w arrivals schedule s' i j p q f :
  Forall (fun r => Flight.inside r = None) arrivals ->
  Flight.run schedule (Flight.mkState w arrivals) = Some s' ->
  Flight.requests s' !! i = Some p ->
  Flight.requests s' !! j = Some q ->
  Flight.inside p = Some f ->
  Flight.inside q = Some f ->
  i = j /\ f ∈ held (Flight.shared s').
Proof.
  intros Harr Hrun Hi Hj Hp Hq.
  assert (Hex : Flight.exclusive s').
  { eapply FlightFacts.exclusive_run; [|exact Hrun].
    now apply FlightFacts.exclusive_arrivals. }
  destruct Hex as [Hheld Hone]. split; eauto.
Qed.

Lemma locked_regions_exclusive_witness :
  0 = 0 /\
  DATA_FILES.leads ∈
    held (Flight.shared
            (default twoSubmissions
               (Flight.run [(0, WriteOk); (1, WriteOk); (0, WriteOk)] twoSubmissions))).
Proof.
  apply (locked_regions_exclusive world0
           [Flight.Arrived DATA_FILES.leads (lead (calm 1793591645123) jo);
            Flight.Arrived DATA_FILES.leads (lead (calm 1793591645125) shout)]
           [(0, WriteOk); (1, WriteOk); (0, WriteOk)]
           (default twoSubmissions
              (Flight.run [(0, WriteOk); (1, WriteOk); (0, WriteOk)] twoSubmissions))
           0 0
           (Flight.Locked DATA_FILES.leads (DArray [lead (calm 1793591645123) jo]))
           (Flight.Locked DATA_FILES.leads (DArray [lead (calm 1793591645123) jo]))
           DATA_FILES.leads).
  - repeat constructor.
  - vm_compute. reflexivity.
  - vm_compute. reflexivity.
  - vm_compute. reflexivity.
  - reflexivity.
  - reflexivity.
Defined.

(** ** Start-up *)

Lemma initFile_exists w f : is_Some (disk w !! f) -> initFile w f = w.
Proof.
  intros H. unfold initFile, existsSync. now rewrite bool_decide_eq_true_2.
Qed.

Lemma initFile_keeps w f g n :
  disk w !! g = Some n -> disk (initFile w f) !! g = Some n.
Proof. intros Hn. rewrite initFile_lookup, Hn. now case_decide. Qed.

Lemma initFile_other w f g : f <> g -> disk (initFile w f) !! g = disk w !! g.
Proof. intros H. now rewrite initFile_lookup, decide_False. Qed.

Lemma initFile_self w f : is_Some (disk (initFile w f) !! f).
Proof.
  rewrite initFile_lookup, decide_True by reflexivity.
  destruct (disk w !! f); eauto.
Qed.

Lemma initFile_held w f : held (initFile w f) = held w.
Proof. unfold initFile. destruct (existsSync f w); [reflexivity|apply held_putContent]. Qed.

Lemma initDataFiles_exists w file :
  file ∈ DATA_FILES.values -> is_Some (disk (initDataFiles w) !! file).
Proof.
  unfold initDataFiles, DATA_FILES.values. cbn [foldl]. intros Hin.
  assert (Hkeep : forall w f g, is_Some (disk w !! g) -> is_Some (disk (initFile w f) !! g)).
  { intros w0 f g [n Hn]. exists n. now apply initFile_keeps. }
  apply elem_of_cons in Hin as [->|Hin]; [do 3 apply Hkeep; apply initFile_self|].
  apply elem_of_cons in Hin as [->|Hin]; [do 2 apply Hkeep; apply initFile_self|].
  apply elem_of_cons in Hin as [->|Hin]; [apply Hkeep, initFile_self|].
  apply elem_of_cons in Hin as [->|Hin]; [apply initFile_self|].
  apply elem_of_nil in Hin. contradiction.
Qed.

(** X23. The initialisation at start-up keeps every file that exists as it
    is, leaves each of the four data files in place, touches no other file
    and no lock, and changes nothing when it runs again. *)
Theorem initDataFiles_completes w :
  (forall file n, disk w !! file = Some n -> disk (initDataFiles w) !! file = Some n) /\
  (forall file, file ∈ DATA_FILES.values -> is_Some (disk (initDataFiles w) !! file)) /\
  (forall file, file ∉ DATA_FILES.values ->
     disk (initDataFiles w) !! file = disk w !! file) /\
  held (initDataFiles w) = held w /\
  initDataFiles (initDataFiles w) = initDataFiles w.
Proof.
  split; [|split; [|split; [|split]]].
  - intros file n Hn. unfold initDataFiles, DATA_FILES.values. cbn [foldl].
    now do 4 apply initFile_keeps.
  - apply initDataFiles_exists.
  - intros file Hout. unfold initDataFiles. unfold DATA_FILES.values in *. cbn [foldl].
    rewrite !initFile_other; [reflexivity|..]; intros Heq; apply Hout; rewrite <- Heq;
      rewrite !elem_of_cons; auto.
  - unfold initDataFiles, DATA_FILES.values. cbn [foldl]. now rewrite !initFile_held.
  - pose proof (initDataFiles_exists w) as Hall.
    set (w4 := initDataFiles w) in *.
    unfold initDataFiles at 1. unfold DATA_FILES.values in *. cbn [foldl].
    rewrite (initFile_exists w4 DATA_FILES.leads)
      by (apply Hall; rewrite !elem_of_cons; auto).
    rewrite (initFile_exists w4 DATA_FILES.contacts)
      by (apply Hall; rewrite !elem_of_cons; auto).
    rewrite (initFile_exists w4 DATA_FILES.investors)
      by (apply Hall; rewrite !elem_of_cons; auto).
    apply initFile_exists. apply Hall. rewrite !elem_of_cons. auto 6.
Qed.

(** ** Submissions to a file that is missing or damaged *)

(** X24. A submission that passes the validation while the file of its
    collection is missing replies the server error, and the file stays
    missing. *)
Theorem submission_to_missing_file c e b w :
  disk w !! fileOf c = None ->
  accepted c b = true ->
  handler c e b w = (w, Return ServerError).
Proof.
  intros Hnone Hacc.
  destruct (handler_cases c e b w) as [[_ ->]|[Hno _]]; [|congruence].
  rewrite save_unfold.
  destruct (snd (readData (fileOf c) w)) as [[items| | |]|]; try reflexivity.
  destruct (writeData_refused e (fileOf c) (DArray (items ++ [recordOf c e b])) w)
    as [err ->]; [now left|reflexivity].
Qed.

Lemma submission_to_missing_file_witness :
  handler Leads (calm 1793591645123) jo (mkWorld ∅ ∅) = (mkWorld ∅ ∅, Return ServerError).
Proof.
  apply submission_to_missing_file.
  - reflexivity.
  - reflexivity.
Defined.

(** X25. A submission that passes the validation while the file of its
    collection holds text that is not JSON replaces that text by an array
    with the new record alone. *)
Theorem submission_to_damaged_file c e b w :
  disk w !! fileOf c = Some (mkNode true Malformed) ->
  fileOf c ∉ held w ->
  quiet e ->
  accepted c b = true ->
  handler c e b w =
    (putContent (fileOf c) (Json (DArray [recordOf c e b])) w, Return Success).
Proof.
  intros Hdisk Hfree [Hlock Hw] Hacc.
  destruct (handler_cases c e b w) as [[_ ->]|[Hno _]]; [|congruence].
  apply (save_success e (fileOf c) (recordOf c e b) w [] _ Hdisk); try assumption.
  rewrite readData_fallback; [reflexivity|]. right. eexists. split; [exact Hdisk|].
  now right.
Qed.

Lemma submission_to_damaged_file_witness :
  handler Leads (calm 1793591645123) jo (putContent DATA_FILES.leads Malformed world0) =
    (putContent (fileOf Leads) (Json (DArray [recordOf Leads (calm 1793591645123) jo]))
       (putContent DATA_FILES.leads Malformed world0),
     Return Success).
Proof.
  apply submission_to_damaged_file.
  - vm_compute. reflexivity.
  - vm_compute. set_solver.
  - split; reflexivity.
  - reflexivity.
Defined.
